(** * FLORIS wake combination: the fractional-norm strategy

    A shallow embedding of
    [floris/simulation/wake_combination/fractional_norm.py]
    (class [FractionalNorm]) and the properties of its specification.

    Layout of the development:
    - [Float64]: the float64 arithmetic the module obtains from Python and
      NumPy, as an interface, with the real numbers as one implementation;
    - [ndarray] and NumPy's broadcasting of elementwise operations;
    - Python values, exceptions, the store of arrays and the state-and-error
      monad the methods run in;
    - the class itself: [default_parameters], [__init__], [function] and the
      two property setters;
    - the properties. *)

From Stdlib Require Import ZArith QArith Qreals Reals Lra List.
From stdpp Require Import base tactics option list gmap strings.

Local Open Scope string_scope.

(** ** Float64 arithmetic *)

(** The operations on float64 that the module uses, all provided by Python
    and NumPy: literals ([of_Q q] is the float written [q], so [of_Q (3#2)]
    is [1.5]), [x + y], [x / y], [x ** y] and [x == y]. *)
Class Float64 (F : Type) := {
  of_Q : Q -> F;
  fadd : F -> F -> F;
  fdiv : F -> F -> F;
  fpow : F -> F -> F;
  feqb : F -> F -> bool
}.

(** The conversion of a Python [int] operand to float64. *)
Definition of_Z `{Float64 F} (z : Z) : F := of_Q (inject_Z z).

(** The facts of IEEE-754 arithmetic that the algebraic properties rest on:
    addition is commutative, raising to the power [1.0] and dividing [1.0]
    by [1.0] are exact, and [1.0 == 0.0] is false. *)
Class Float64Laws (F : Type) `{Float64 F} : Prop := {
  fadd_comm : forall x y : F, fadd x y = fadd y x;
  fpow_1_r : forall x : F, fpow x (of_Z 1) = x;
  fdiv_1_1 : fdiv (of_Z 1) (of_Z 1) = of_Z 1 :> F;
  feqb_1_0 : feqb (of_Z 1 : F) (of_Z 0) = false
}.

(** *** The real numbers as an implementation

    Exact arithmetic: [x ** y] is [exp (y * ln x)] for a positive base,
    [0 ** 0 = 1] and [0 ** y = 0]; a negative base has a power at the
    integer exponents, [(-3) ** 2 = 9]. Where float64 has [nan] (a negative
    base and an exponent that is no integer) the instance has [0]. *)
Definition Rpow (x y : R) : R :=
  match total_order_T 0 x with
  | inleft (left _) => Rpower x y
  | inleft (right _) => if Req_dec_T y 0 then 1%R else 0%R
  | inright _ =>
      if Req_dec_T (IZR (Int_part y)) y then powerRZ x (Int_part y) else 0%R
  end.

Definition Reqb (x y : R) : bool :=
  if Req_dec_T x y then true else false.

#[export] Instance R_Float64 : Float64 R := {|
  of_Q := Q2R;
  fadd := Rplus;
  fdiv := Rdiv;
  fpow := Rpow;
  feqb := Reqb
|}.

(** ** NumPy arrays *)

(** An [ndarray] of float64: its shape and its elements in row-major order. *)
Record ndarray (F : Type) := NdArray {
  shape : list nat;
  data : list F
}.
Arguments NdArray {F} _ _.
Arguments shape {F} _.
Arguments data {F} _.

(** The number of elements a shape holds. *)
Definition product (s : list nat) : nat := foldr Nat.mul 1 s.

(** A well-formed array has as many elements as its shape says. *)
Definition wf_array {F} (a : ndarray F) : Prop :=
  length (data a) = product (shape a).

(** *** Broadcasting

    Shapes are aligned at their last dimension; two dimensions are
    compatible when they are equal or one of them is 1. *)
Definition broadcast_dim (d1 d2 : nat) : option nat :=
  if decide (d1 = d2) then Some d1
  else if decide (d1 = 1) then Some d2
  else if decide (d2 = 1) then Some d1
  else None.

Fixpoint broadcast_rev (s1 s2 : list nat) : option (list nat) :=
  match s1, s2 with
  | [], s => Some s
  | s, [] => Some s
  | d1 :: r1, d2 :: r2 =>
      match broadcast_dim d1 d2, broadcast_rev r1 r2 with
      | Some d, Some r => Some (d :: r)
      | _, _ => None
      end
  end.

Definition broadcast_shapes (s1 s2 : list nat) : option (list nat) :=
  reverse <$> broadcast_rev (reverse s1) (reverse s2).

(** A shape padded with leading 1s to [n] dimensions. *)
Definition pad_shape (n : nat) (s : list nat) : list nat :=
  replicate (n - length s) 1 ++ s.

(** The elements of an array of shape [src] stretched to shape [tgt] (of the
    same number of dimensions): a dimension of size 1 is repeated. *)
Fixpoint expand {F} (src tgt : list nat) (d : list F) : list F :=
  match src, tgt with
  | s :: src', t :: tgt' =>
      if decide (s = t)
      then concat (map (fun i => expand src' tgt'
                                   (take (product src') (drop (i * product src') d)))
                       (seq 0 s))
      else concat (replicate t (expand src' tgt' d))
  | _, _ => d
  end.

Definition broadcast_to {F} (tgt : list nat) (a : ndarray F) : list F :=
  expand (pad_shape (length tgt) (shape a)) tgt (data a).

(** ** Python values *)

(** A Python number: an [int] or a [float]. *)
Inductive num (F : Type) :=
  | NInt (z : Z)
  | NFloat (x : F).
Arguments NInt {F} _.
Arguments NFloat {F} _.

(** The values a configuration supplies for a parameter: [None], a number, a
    string, a list of numbers, a dictionary from turbine index to number, or
    a NumPy array. *)
Inductive pyval (F : Type) :=
  | VNone
  | VInt (z : Z)
  | VFloat (x : F)
  | VStr (s : string)
  | VList (l : list (num F))
  | VDict (d : gmap Z (num F))
  | VArray (a : ndarray F).
Arguments VNone {F}.
Arguments VInt {F} _.
Arguments VFloat {F} _.
Arguments VStr {F} _.
Arguments VList {F} _.
Arguments VDict {F} _.
Arguments VArray {F} _.

(** What [norm_order[turbnum]] evaluates to: a Python number (an element of
    a list or a dictionary), a one-character string, a NumPy float64 scalar
    (an element of a one-dimensional array) or an array (a sub-array, or the
    array under a new leading axis). *)
Inductive item (F : Type) :=
  | IPy (n : num F)
  | IStr (s : string)
  | INp (x : F)
  | IArr (a : ndarray F).
Arguments IPy {F} _.
Arguments IStr {F} _.
Arguments INp {F} _.
Arguments IArr {F} _.

(** The text of a log record or of an exception, by its format string:
    - [NotTuned name value tuned]:
      "Current value of name, value, is not equal to tuned value of tuned."
    - [InvalidValueType name value]:
      "Invalid value type given for name: value, expected float."
    - [AmbiguousTruth]: NumPy's "The truth value of an array with more than
      one element is ambiguous."
    - [BroadcastMismatch]: NumPy's "operands could not be broadcast
      together". *)
Inductive message (F : Type) :=
  | NotTuned (name : string) (value : pyval F) (tuned : pyval F)
  | InvalidValueType (name : string) (value : pyval F)
  | AmbiguousTruth
  | BroadcastMismatch.
Arguments NotTuned {F} _ _ _.
Arguments InvalidValueType {F} _ _.
Arguments AmbiguousTruth {F}.
Arguments BroadcastMismatch {F}.

(** Exceptions. [ReferenceError] stands for the use of a reference that
    denotes no array of the store. *)
Inductive exn (F : Type) :=
  | ValueError (m : message F)
  | TypeError
  | IndexError
  | KeyError
  | ZeroDivisionError
  | OverflowError
  | AttributeError
  | ReferenceError.
Arguments ValueError {F} _.
Arguments TypeError {F}.
Arguments IndexError {F}.
Arguments KeyError {F}.
Arguments ZeroDivisionError {F}.
Arguments OverflowError {F}.
Arguments AttributeError {F}.
Arguments ReferenceError {F}.

Inductive result (F A : Type) :=
  | Ok (a : A)
  | Raise (e : exn F).
Arguments Ok {F A} _.
Arguments Raise {F A} _.

(** A record of the logger: [logger.info] or [logger.error]. *)
Inductive log_record (F : Type) :=
  | LogInfo (m : message F)
  | LogError (m : message F).
Arguments LogInfo {F} _.
Arguments LogError {F} _.

(** References to arrays. *)
Definition loc := positive.

(** ** The state

    The attributes of the strategy instance ([None] while an attribute is
    not set), the records logged so far and the store of NumPy arrays. *)
Record state (F : Type) := State {
  parameter_dictionary : option (option (gmap string (pyval F)));
  model_string : option string;
  _norm_order : option (pyval F);
  _wake_weight : option (pyval F);
  logger : list (log_record F);
  heap : gmap loc (ndarray F)
}.
Arguments State {F} _ _ _ _ _ _.
Arguments parameter_dictionary {F} _.
Arguments model_string {F} _.
Arguments _norm_order {F} _.
Arguments _wake_weight {F} _.
Arguments logger {F} _.
Arguments heap {F} _.

(** Computations that read and write the state and may raise. *)
Definition M (F A : Type) : Type := state F -> result F A * state F.

Definition ret {F A} (a : A) : M F A := fun st => (Ok a, st).

Definition raise {F A} (e : exn F) : M F A := fun st => (Raise e, st).

Definition bind {F A B} (m : M F A) (k : A -> M F B) : M F B :=
  fun st =>
    match m st with
    | (Ok a, st') => k a st'
    | (Raise e, st') => (Raise e, st')
    end.

Notation "'let*' x ':=' m 'in' k" := (bind m (fun x => k))
  (at level 10, x name, m at level 100, k at level 200, only parsing).

(** A pure computation that may raise, run in [M]. *)
Definition lift {F A} (r : result F A) : M F A := fun st => (r, st).

Section FractionalNorm.
Context {F : Type} `{!Float64 F}.

(** ** Python and NumPy operations *)

(** Sequencing of pure computations that may raise. *)
Definition and_then {A B} (r : result F A) (k : A -> result F B) : result F B :=
  match r with
  | Ok a => k a
  | Raise e => Raise e
  end.

(** The largest float64 is just under [2 ^ 1024]: an int whose magnitude
    is [2 ^ 1024 - 2 ^ 970] or more rounds beyond it, and has no float64. *)
Definition float_limit : Z := 2 ^ 1024 - 2 ^ 970.

(** The ints float64 holds exactly are those of magnitude at most
    [2 ^ 53]. *)
Definition exact_limit : Z := 2 ^ 53.

(** The float64 a Python [int] converts to; beyond the range of float64
    the conversion raises [OverflowError]. An [int] above [exact_limit] is
    rounded, and NumPy 1.x keeps an [int] of more than 64 bits as a Python
    object, which it raises to with Python's own float power; the model
    follows the float64 conversion there, and the properties are stated for
    the ints float64 holds exactly and for those beyond its range. *)
Definition float_of_int (z : Z) : result F F :=
  if decide (Z.abs z < float_limit)%Z then Ok (of_Z z)
  else Raise OverflowError.

(** The float64 operand a Python number becomes in NumPy arithmetic on a
    float64 array. *)
Definition to_float (n : num F) : result F F :=
  match n with
  | NInt z => float_of_int z
  | NFloat x => Ok x
  end.

(** The position an index denotes in a sequence of [len] elements; a
    negative index counts from the end. *)
Definition py_index (len : nat) (i : Z) : option nat :=
  if decide (0 <= i < Z.of_nat len)%Z then Some (Z.to_nat i)
  else if decide (- Z.of_nat len <= i < 0)%Z then Some (Z.to_nat (i + Z.of_nat len))
  else None.

(** [d[key]] on a dictionary. *)
Definition dict_get {K A} `{Countable K} (d : gmap K A) (key : K) : result F A :=
  match d !! key with
  | Some v => Ok v
  | None => Raise KeyError
  end.

(** [v[key]], where [key] is a turbine index or [None]. A number and [None]
    are not subscriptable; a list and a string take integer indices; a
    dictionary is looked up by key; an array gives its [i]-th element or
    sub-array, and under [None] gains a leading axis of length 1. *)
Definition getitem (v : pyval F) (key : option Z) : result F (item F) :=
  match v, key with
  | VNone, _ | VInt _, _ | VFloat _, _ => Raise TypeError
  | VStr s, Some i =>
      match py_index (String.length s) i with
      | Some k => Ok (IStr (String.substring k 1 s))
      | None => Raise IndexError
      end
  | VStr _, None => Raise TypeError
  | VList l, Some i =>
      match py_index (length l) i with
      | Some k =>
          match l !! k with
          | Some n => Ok (IPy n)
          | None => Raise IndexError
          end
      | None => Raise IndexError
      end
  | VList _, None => Raise TypeError
  | VDict d, Some i =>
      match d !! i with
      | Some n => Ok (IPy n)
      | None => Raise KeyError
      end
  | VDict _, None => Raise KeyError
  | VArray a, Some i =>
      match shape a with
      | [] => Raise IndexError
      | n :: rest =>
          match py_index n i with
          | Some k =>
              match rest with
              | [] =>
                  match data a !! k with
                  | Some x => Ok (INp x)
                  | None => Raise IndexError
                  end
              | _ :: _ =>
                  Ok (IArr (NdArray rest
                              (take (product rest) (drop (k * product rest) (data a)))))
              end
          | None => Raise IndexError
          end
      end
  | VArray a, None => Ok (IArr (NdArray (1 :: shape a) (data a)))
  end.

(** [1 / p]. Python raises [ZeroDivisionError] on a zero Python number;
    NumPy divides a float64 scalar or array elementwise (to [inf] at zero). *)
Definition truediv_one (p : item F) : result F (item F) :=
  match p with
  | IPy (NInt z) =>
      if decide (z = 0%Z) then Raise ZeroDivisionError
      else Ok (IPy (NFloat (fdiv (of_Z 1) (of_Z z))))
  | IPy (NFloat x) =>
      if feqb x (of_Z 0) then Raise ZeroDivisionError
      else Ok (IPy (NFloat (fdiv (of_Z 1) x)))
  | IStr _ => Raise TypeError
  | INp x => Ok (INp (fdiv (of_Z 1) x))
  | IArr a => Ok (IArr (NdArray (shape a) (map (fdiv (of_Z 1)) (data a))))
  end.

(** An elementwise binary operation on two arrays, broadcast to a common
    shape. *)
Definition ufunc (f : F -> F -> F) (a b : ndarray F) : result F (ndarray F) :=
  match broadcast_shapes (shape a) (shape b) with
  | Some s => Ok (NdArray s (zip_with f (broadcast_to s a) (broadcast_to s b)))
  | None => Raise (ValueError BroadcastMismatch)
  end.

(** [a ** p] on an array [a]. A Python number is converted to float64
    first, which raises [OverflowError] for an [int] out of its range. *)
Definition power (a : ndarray F) (p : item F) : result F (ndarray F) :=
  match p with
  | IPy n =>
      and_then (to_float n) (fun y =>
        Ok (NdArray (shape a) (map (fun x => fpow x y) (data a))))
  | IStr _ => Raise TypeError
  | INp y => Ok (NdArray (shape a) (map (fun x => fpow x y) (data a)))
  | IArr b => ufunc fpow a b
  end.

(** The result of [value != tuned]: a [bool], or an array of them when
    [value] is an array (the comparison is then elementwise). *)
Inductive comparison :=
  | CBool (b : bool)
  | CArray (s : list nat) (bs : list bool).

Definition py_ne (value : pyval F) (tuned : F) : comparison :=
  match value with
  | VInt z => CBool (negb (feqb (of_Z z) tuned))
  | VFloat x => CBool (negb (feqb x tuned))
  | VArray a => CArray (shape a) (map (fun x => negb (feqb x tuned)) (data a))
  | VNone | VStr _ | VList _ | VDict _ => CBool true
  end.

(** The truth value an [if] takes of a comparison: an array of one element
    has the truth value of that element, an empty array is false, and an
    array of more elements has none. *)
Definition truth (c : comparison) : result F bool :=
  match c with
  | CBool b => Ok b
  | CArray _ [] => Ok false
  | CArray _ [b] => Ok b
  | CArray _ (_ :: _ :: _) => Raise (ValueError AmbiguousTruth)
  end.

(** [type(value) is float]. *)
Definition is_float (value : pyval F) : bool :=
  match value with
  | VFloat _ => true
  | _ => false
  end.

(** *** The store of arrays *)

Definition set_heap (h : gmap loc (ndarray F)) (st : state F) : state F :=
  State (parameter_dictionary st) (model_string st) (_norm_order st)
        (_wake_weight st) (logger st) h.

(** The array a reference denotes. *)
Definition deref (l : loc) : M F (ndarray F) :=
  fun st =>
    match heap st !! l with
    | Some a => (Ok a, st)
    | None => (Raise ReferenceError, st)
    end.

(** A new array: it is stored under a reference not in use. *)
Definition alloc (a : ndarray F) : M F loc :=
  fun st =>
    let l := fresh (dom (heap st)) in
    (Ok l, set_heap (<[l := a]> (heap st)) st).

(** [u ** p] and [u + v] on references: NumPy computes a new array and
    leaves its operands as they are. *)
Definition np_power (u : loc) (p : item F) : M F loc :=
  let* a := deref u in
  let* r := lift (power a p) in
  alloc r.

Definition np_add (u v : loc) : M F loc :=
  let* a := deref u in
  let* b := deref v in
  let* r := lift (ufunc fadd a b) in
  alloc r.

(** ** The class [FractionalNorm] *)

(** Assignment to the attributes of [self]. *)
Definition set_parameter_dictionary (d : option (gmap string (pyval F))) : M F unit :=
  fun st =>
    (Ok tt, State (Some d) (model_string st) (_norm_order st)
                  (_wake_weight st) (logger st) (heap st)).

Definition set_model_string (s : string) : M F unit :=
  fun st =>
    (Ok tt, State (parameter_dictionary st) (Some s) (_norm_order st)
                  (_wake_weight st) (logger st) (heap st)).

Definition set__norm_order (value : pyval F) : M F unit :=
  fun st =>
    (Ok tt, State (parameter_dictionary st) (model_string st) (Some value)
                  (_wake_weight st) (logger st) (heap st)).

Definition set__wake_weight (value : pyval F) : M F unit :=
  fun st =>
    (Ok tt, State (parameter_dictionary st) (model_string st) (_norm_order st)
                  (Some value) (logger st) (heap st)).

(** Modelled from the spec: the logger that the strategy inherits from its
    base class, which is not part of this module. The diagnostics channel
    of the spec reports each message once: [logger.info] and [logger.error]
    add one record and never fail. *)
Definition log_append (r : log_record F) : M F unit :=
  fun st =>
    (Ok tt, State (parameter_dictionary st) (model_string st) (_norm_order st)
                  (_wake_weight st) (logger st ++ [r]) (heap st)).

(** Modelled from the spec: [self.logger.info(msg)] of the inherited
    logger, an informational record on the diagnostics channel. *)
Definition logger_info (m : message F) : M F unit := log_append (LogInfo m).

(** Modelled from the spec: [self.logger.error(msg, stack_info=True)] of
    the inherited logger, an error record on the diagnostics channel. *)
Definition logger_error (m : message F) : M F unit := log_append (LogError m).

(** [default_parameters = {"norm_order": 1.5, "wake_weight": 1.0}] *)
Definition default_parameters : gmap string F :=
  <["norm_order" := of_Q (3 # 2)]> (<["wake_weight" := of_Q 1]> ∅).

(** Modelled from the spec: the constructor of the base class
    ([WakeCombination.__init__], not part of this module) keeps the
    configuration mapping it is given. *)
Definition super__init__ (parameter_dictionary : option (gmap string (pyval F))) : M F unit :=
  set_parameter_dictionary parameter_dictionary.

(** Modelled from the spec: the Parameter Resolver
    ([WakeCombination._get_model_dict], not part of this module). Given the
    defaults of the strategy and the configuration, which may be [None],
    empty or lack keys, it returns the mapping that holds every default key,
    with the caller's value where the configuration has one and the default
    otherwise. It has no effect and defines no error. *)
Definition resolve (default_dict : gmap string F)
    (user : option (gmap string (pyval F))) : gmap string (pyval F) :=
  map_imap (fun key d =>
              Some (match user with
                    | Some cfg => match cfg !! key with
                                  | Some v => v
                                  | None => VFloat d
                                  end
                    | None => VFloat d
                    end)) default_dict.

(** Modelled from the spec: the method of [self] that runs the Parameter
    Resolver on the configuration kept at construction. *)
Definition _get_model_dict (default_dict : gmap string F) : M F (gmap string (pyval F)) :=
  fun st =>
    match parameter_dictionary st with
    | Some user => (Ok (resolve default_dict user), st)
    | None => (Raise AttributeError, st)
    end.

(** The property [norm_order]: [return self._norm_order]. *)
Definition norm_order : M F (pyval F) :=
  fun st =>
    match _norm_order st with
    | Some v => (Ok v, st)
    | None => (Raise AttributeError, st)
    end.

(** The setter of [norm_order]. Its type check is commented out in the
    source: the value is stored, then compared with the tuned default. *)
Definition norm_order_setter (value : pyval F) : M F unit :=
  let* _ := set__norm_order value in
  let* tuned := lift (dict_get default_parameters "norm_order") in
  let* differs := lift (truth (py_ne value tuned)) in
  if differs
  then logger_info (NotTuned "norm_order" value (VFloat tuned))
  else ret tt.

(** The property [wake_weight]: [return self._wake_weight]. *)
Definition wake_weight : M F (pyval F) :=
  fun st =>
    match _wake_weight st with
    | Some v => (Ok v, st)
    | None => (Raise AttributeError, st)
    end.

(** The setter of [wake_weight]: a value that is not a [float] is logged
    as an error and rejected with [ValueError]; a [float] is stored, then
    compared with the tuned default. *)
Definition wake_weight_setter (value : pyval F) : M F unit :=
  if negb (is_float value)
  then
    let err_msg := InvalidValueType "wake_weight" value in
    let* _ := logger_error err_msg in
    raise (ValueError err_msg)
  else
    let* _ := set__wake_weight value in
    let* tuned := lift (dict_get default_parameters "wake_weight") in
    let* differs := lift (truth (py_ne value tuned)) in
    if differs
    then logger_info (NotTuned "wake_weight" value (VFloat tuned))
    else ret tt.

(** [FractionalNorm.__init__] *)
Definition __init__ (parameter_dictionary : option (gmap string (pyval F))) : M F unit :=
  let* _ := super__init__ parameter_dictionary in
  let* _ := set_model_string "fracnorm" in
  let* model_dictionary := _get_model_dict default_parameters in
  let* v := lift (dict_get model_dictionary "norm_order") in
  let* _ := norm_order_setter v in
  let* w := lift (dict_get model_dictionary "wake_weight") in
  wake_weight_setter w.

(** [FractionalNorm.function]: the combination of the base flow field
    [u_field] with the wake [u_wake], given by reference. The operands of
    the expression are evaluated from left to right. *)
Definition function (u_field u_wake : loc) (turbnum : option Z) : M F loc :=
  let* self_norm_order := norm_order in
  let* norm_order := lift (getitem self_norm_order turbnum) in
  let* wake_pow := np_power u_wake norm_order in
  let* field_pow := np_power u_field norm_order in
  let* total := np_add wake_pow field_pow in
  let* root := lift (truediv_one norm_order) in
  np_power total root.

(** A new object, before [__init__] runs: no attribute is set. *)
Definition new_object (lg : list (log_record F)) (h : gmap loc (ndarray F)) : state F :=
  State None None None None lg h.

(** [FractionalNorm(parameter_dictionary)]: [__init__] runs on a new
    object. The outcome is [Ok] when construction returns the instance, and
    the exception it raised otherwise; the state holds the attributes set
    so far and the records logged. *)
Definition FractionalNorm (parameter_dictionary : option (gmap string (pyval F)))
    (lg : list (log_record F)) (h : gmap loc (ndarray F)) : result F unit * state F :=
  __init__ parameter_dictionary (new_object lg h).

(** The array a call returned, or the exception it raised. *)
Definition returned (r : result F loc * state F) : result F (ndarray F) :=
  match r with
  | (Ok l, st) =>
      match heap st !! l with
      | Some a => Ok a
      | None => Raise ReferenceError
      end
  | (Raise e, _) => Raise e
  end.

(** The value construction assigns to a parameter: the caller's, or the
    default. *)
Definition configured (user : option (gmap string (pyval F))) (key : string)
    (d : F) : pyval F :=
  match user with
  | Some cfg => match cfg !! key with Some v => v | None => VFloat d end
  | None => VFloat d
  end.

(** ** Vocabulary of the properties *)

(** The array [function] computes from the exponent [p] and the arrays the
    two references denote, operand by operand. *)
Definition combined (p : item F) (field wake : ndarray F) : result F (ndarray F) :=
  and_then (power wake p) (fun wake_pow =>
  and_then (power field p) (fun field_pow =>
  and_then (ufunc fadd wake_pow field_pow) (fun total =>
  and_then (truediv_one p) (fun root =>
  power total root)))).

(** [frame st st']: the attributes of the strategy and the log are the
    same in [st'] as in [st], and every array of [st] is in [st'],
    unchanged. *)
Definition frame (st st' : state F) : Prop :=
  parameter_dictionary st' = parameter_dictionary st /\
  model_string st' = model_string st /\
  _norm_order st' = _norm_order st /\
  _wake_weight st' = _wake_weight st /\
  logger st' = logger st /\
  heap st ⊆ heap st'.

(** A computation that only adds arrays to the store. *)
Definition allocates_only {A} (m : M F A) : Prop :=
  forall st, frame st (snd (m st)).

(** Two states that agree on what [function] reads: the stored
    [norm_order] and the arrays. *)
Definition same_inputs (st1 st2 : state F) : Prop :=
  _norm_order st1 = _norm_order st2 /\ heap st1 = heap st2.

(** A computation whose outcome depends on nothing else. *)
Definition reads_inputs_only {A} (m : M F A) : Prop :=
  forall st1 st2, same_inputs st1 st2 ->
    fst (m st1) = fst (m st2) /\ same_inputs (snd (m st1)) (snd (m st2)).


(** A per-turbine indexed collection of numbers: a list, a dictionary
    keyed by turbine index, or a one-dimensional array. *)
Definition indexed_collection (value : pyval F) : Prop :=
  match value with
  | VList _ | VDict _ => True
  | VArray a => length (shape a) = 1
  | VNone | VInt _ | VFloat _ | VStr _ => False
  end.

(** The float64 an exponent is, when it is a number that float64 holds
    exactly: a Python [float], a float64 scalar, or a Python [int] of
    magnitude at most [2 ^ 53]. *)
Definition scalar (p : item F) : option F :=
  match p with
  | IPy (NInt z) =>
      if decide (Z.abs z <= exact_limit)%Z then Some (of_Z z) else None
  | IPy (NFloat x) => Some x
  | INp x => Some x
  | IStr _ | IArr _ => None
  end.

(** The exponent [1], as an [int], a [float] or a float64 scalar. *)
Definition is_one (p : item F) : Prop :=
  p = IPy (NInt 1) \/ p = IPy (NFloat (of_Z 1)) \/ p = INp (of_Z 1).

(** The fractional norm of the spec, on two elements: with exponent [q]
    and root [r], [(w ** q + b ** q) ** r]. *)
Definition fractional_norm (q r : F) (w b : F) : F :=
  fpow (fadd (fpow w q) (fpow b q)) r.


End FractionalNorm.

(** ** A concrete scene, on the real numbers

    Two one-dimensional flow fields of two points each, held by the store
    under the references [1] and [2], and a constructed strategy whose
    [norm_order] is [value]. *)
Definition example_field : ndarray R := NdArray [2] [1%R; 2%R].

Definition example_wake : ndarray R := NdArray [2] [3%R; 4%R].

Definition example_heap : gmap loc (ndarray R) :=
  <[1%positive := example_field]> (<[2%positive := example_wake]> ∅).

Definition example_state (value : pyval R) : state R :=
  State (Some None) (Some "fracnorm") (Some value) (Some (VFloat (of_Q 1)))
        [] example_heap.

(** A per-turbine [norm_order] given as an array of two exponents. *)
Definition example_orders : ndarray R := NdArray [2] [1%R; 2%R].

(** The shape scenario of the spec: two 3-by-3 arrays of ones, under the
    references [1] and [2]. *)
Definition ones_3x3 : ndarray R := NdArray [3; 3] (replicate 9 1%R).

Definition ones_heap : gmap loc (ndarray R) :=
  <[1%positive := ones_3x3]> (<[2%positive := ones_3x3]> ∅).


(** A larger scene: a second wake of the same shape under the reference
    [3], and a field of three points under [4]. *)
Definition example_wake2 : ndarray R := NdArray [2] [5%R; 6%R].

Definition example_wide : ndarray R := NdArray [3] [1%R; 2%R; 3%R].

Definition scene_heap : gmap loc (ndarray R) :=
  <[1%positive := example_field]>
    (<[2%positive := example_wake]>
       (<[3%positive := example_wake2]> (<[4%positive := example_wide]> ∅))).

Definition scene_state (value : pyval R) : state R :=
  State (Some None) (Some "fracnorm") (Some value) (Some (VFloat (of_Q 1)))
        [] scene_heap.


(** A [norm_order] given as an array of one exponent. *)
Definition example_single : ndarray R := NdArray [1] [1%R].


(** * Properties *)

Section Properties.
Context {F : Type} `{!Float64 F}.

Implicit Types (st : state F) (value : pyval F) (a b : ndarray F) (p : item F).

#[local] Arguments norm_order_setter : simpl never.
#[local] Arguments wake_weight_setter : simpl never.
#[local] Arguments FractionalNorm : simpl never.
#[local] Arguments function : simpl never.

(** ** The defaults and the Parameter Resolver *)

Lemma default_norm_order :
  default_parameters !! "norm_order" = Some (of_Q (3 # 2) : F).
Proof. unfold default_parameters. apply lookup_insert_eq. Qed.

Lemma default_wake_weight :
  default_parameters !! "wake_weight" = Some (of_Q 1 : F).
Proof.
  unfold default_parameters.
  rewrite lookup_insert_ne by discriminate. apply lookup_insert_eq.
Qed.

(** The resolved mapping holds, under a default key, the caller's value if
    there is one and the default otherwise. *)
Lemma resolve_lookup (defaults : gmap string F) user key d :
  defaults !! key = Some d ->
  resolve defaults user !! key =
    Some (match user with
          | Some cfg => match cfg !! key with Some v => v | None => VFloat d end
          | None => VFloat d
          end).
Proof.
  intros Hd. unfold resolve. rewrite map_lookup_imap, Hd. reflexivity.
Qed.

(** ** The setters *)

(** The setter of [norm_order], step by step: the value is stored first,
    and what follows is decided by the truth value of the comparison. *)
Lemma norm_order_setter_unfold value st :
  norm_order_setter value st =
    let st1 := snd (set__norm_order value st) in
    match truth (py_ne value (of_Q (3 # 2))) with
    | Ok true =>
        logger_info (NotTuned "norm_order" value (VFloat (of_Q (3 # 2)))) st1
    | Ok false => (Ok tt, st1)
    | Raise e => (Raise e, st1)
    end.
Proof.
  unfold norm_order_setter, bind, lift, dict_get. cbn.
  rewrite default_norm_order.
  destruct (truth (py_ne value (of_Q (3 # 2)))) as [[|]|e]; reflexivity.
Qed.

Lemma wake_weight_setter_float (x : F) st :
  wake_weight_setter (VFloat x) st =
    let st1 := snd (set__wake_weight (VFloat x) st) in
    if feqb x (of_Q 1)
    then (Ok tt, st1)
    else logger_info (NotTuned "wake_weight" (VFloat x) (VFloat (of_Q 1))) st1.
Proof.
  unfold wake_weight_setter, bind, lift, dict_get. cbn.
  rewrite default_wake_weight. cbn.
  destruct (feqb x (of_Q 1)); reflexivity.
Qed.

Lemma wake_weight_setter_not_float value st :
  is_float value = false ->
  wake_weight_setter value st =
    (Raise (ValueError (InvalidValueType "wake_weight" value)),
     snd (logger_error (InvalidValueType "wake_weight" value) st)).
Proof.
  intros Hf. unfold wake_weight_setter. rewrite Hf. reflexivity.
Qed.

(** What a setter leaves of the state. *)
Lemma norm_order_setter_state value st :
  let st' := snd (norm_order_setter value st) in
  parameter_dictionary st' = parameter_dictionary st /\
  model_string st' = model_string st /\
  _norm_order st' = Some value /\
  _wake_weight st' = _wake_weight st /\
  heap st' = heap st.
Proof.
  rewrite norm_order_setter_unfold. cbn.
  destruct (truth (py_ne value (of_Q (3 # 2)))) as [[|]|e]; cbn; auto.
Qed.

(** ** Construction *)

(** Construction assigns [norm_order], then [wake_weight], through their
    setters, and stops at the first that raises. *)
Lemma FractionalNorm_unfold user lg h :
  FractionalNorm user lg h =
    match norm_order_setter (configured user "norm_order" (of_Q (3 # 2)))
            (State (Some user) (Some "fracnorm") None None lg h) with
    | (Ok _, st1) => wake_weight_setter (configured user "wake_weight" (of_Q 1)) st1
    | (Raise e, st1) => (Raise e, st1)
    end.
Proof.
  unfold FractionalNorm, __init__, bind, lift, dict_get, _get_model_dict. cbn.
  rewrite (resolve_lookup _ _ _ _ default_norm_order).
  rewrite (resolve_lookup _ _ _ _ default_wake_weight).
  reflexivity.
Qed.

(** Construction succeeds when the configured [wake_weight] is a [float]
    and the comparison of the configured [norm_order] with the default has a
    truth value. The instance holds the configured values, and the store is
    the one construction started from. *)
Lemma FractionalNorm_ok user lg h tv :
  truth (F:=F) (py_ne (configured user "norm_order" (of_Q (3 # 2))) (of_Q (3 # 2))) = Ok tv ->
  is_float (configured user "wake_weight" (of_Q 1)) = true ->
  let c := FractionalNorm user lg h in
  fst c = Ok tt /\
  _norm_order (snd c) = Some (configured user "norm_order" (of_Q (3 # 2))) /\
  _wake_weight (snd c) = Some (configured user "wake_weight" (of_Q 1)) /\
  heap (snd c) = h.
Proof.
  intros Ht Hf. cbn zeta. rewrite FractionalNorm_unfold.
  destruct (configured user "wake_weight" (of_Q 1)) as [| |x| | | |];
    try discriminate.
  rewrite norm_order_setter_unfold, Ht. cbn zeta.
  destruct tv; cbn; rewrite wake_weight_setter_float; cbn;
    destruct (feqb x (of_Q 1)); cbn; auto.
Qed.

(** C3. Writing [norm_order] validates no type. Whatever the value, the
    setter stores it and never raises the configuration type error; a value
    that is not an array is always accepted. The comparison with the tuned
    default is still made: when it is true one advisory record is logged,
    when it is false nothing is, and the only exception the setter can raise
    is the one the truth value of that comparison raises. *)
Theorem norm_order_setter_no_type_check value st :
  let r := norm_order_setter value st in
  _norm_order (snd r) = Some value /\
  (forall name v, fst r <> Raise (ValueError (InvalidValueType name v))) /\
  match value with VArray _ => True | _ => fst r = Ok tt end /\
  match truth (py_ne value (of_Q (3 # 2))) with
  | Ok true =>
      fst r = Ok tt /\
      logger (snd r) =
        (logger st ++ [LogInfo (NotTuned "norm_order" value (VFloat (of_Q (3 # 2))))])%list
  | Ok false => fst r = Ok tt /\ logger (snd r) = logger st
  | Raise e =>
      e = ValueError AmbiguousTruth /\ fst r = Raise e /\ logger (snd r) = logger st
  end.
Proof.
  cbn zeta. rewrite norm_order_setter_unfold. cbn zeta.
  assert (Hraise : forall e : exn F, truth (py_ne value (of_Q (3 # 2))) = Raise e ->
                             e = ValueError AmbiguousTruth).
  { intros e. destruct value as [| | | | | |a]; cbn; try discriminate.
    destruct (map _ (data a)) as [|? [|? ?]]; cbn; congruence. }
  assert (Hscalar : match value with
                    | VArray _ => True
                    | _ => exists tv : bool, truth (F:=F) (py_ne value (of_Q (3 # 2))) = Ok tv
                    end).
  { destruct value; cbn; eauto. }
  destruct (truth (py_ne value (of_Q (3 # 2)))) as [[|]|e] eqn:Ht; cbn.
  - repeat split; try discriminate. destruct value; exact I || reflexivity.
  - repeat split; try discriminate. destruct value; exact I || reflexivity.
  - pose proof (Hraise e eq_refl) as ->.
    repeat split; try congruence.
    destruct value; try exact I; destruct Hscalar as [? ?]; discriminate.
Qed.

(** Construction from an empty configuration. *)
Lemma FractionalNorm_empty lg h :
  let r := FractionalNorm (Some ∅) lg h in
  fst r = Ok tt /\
  _norm_order (snd r) = Some (VFloat (of_Q (3 # 2))) /\
  _wake_weight (snd r) = Some (VFloat (of_Q 1)).
Proof.
  cbn zeta. rewrite FractionalNorm_unfold. unfold configured.
  rewrite !lookup_empty.
  rewrite norm_order_setter_unfold. cbn.
  destruct (feqb (of_Q (3 # 2)) (of_Q (3 # 2))); cbn;
    rewrite wake_weight_setter_float; cbn;
    destruct (feqb (of_Q 1) (of_Q 1)); cbn; auto.
Qed.

(** C5. Constructed with an empty configuration mapping, the strategy holds
    the defaults: reading [norm_order] gives [1.5] and reading [wake_weight]
    gives [1.0]. *)
Theorem empty_configuration_gives_defaults lg h :
  let r := FractionalNorm (Some ∅) lg h in
  fst r = Ok tt /\
  fst (norm_order (snd r)) = Ok (VFloat (of_Q (3 # 2))) /\
  fst (wake_weight (snd r)) = Ok (VFloat (of_Q 1)).
Proof.
  cbn zeta. destruct (FractionalNorm_empty lg h) as (Hok & Hn & Hw).
  unfold norm_order, wake_weight. rewrite Hn, Hw. auto.
Qed.

(** The same holds when no configuration is given at all. *)
Lemma no_configuration_gives_defaults lg h :
  let r := FractionalNorm None lg h in
  fst r = Ok tt /\
  fst (norm_order (snd r)) = Ok (VFloat (of_Q (3 # 2))) /\
  fst (wake_weight (snd r)) = Ok (VFloat (of_Q 1)).
Proof.
  cbn zeta. rewrite FractionalNorm_unfold. unfold configured.
  rewrite norm_order_setter_unfold. cbn.
  destruct (feqb (of_Q (3 # 2)) (of_Q (3 # 2))); cbn;
    rewrite wake_weight_setter_float; cbn;
    destruct (feqb (of_Q 1) (of_Q 1)); cbn; auto.
Qed.

(** The value construction finds for a parameter the configuration sets. *)
Lemma configured_insert (user : gmap string (pyval F)) key value d :
  configured (Some (<[key := value]> user)) key d = value.
Proof. unfold configured. rewrite lookup_insert_eq. reflexivity. Qed.

Lemma configured_insert_ne (user : gmap string (pyval F)) key key' value d :
  key <> key' ->
  configured (Some (<[key := value]> user)) key' d = configured (Some user) key' d.
Proof. intros Hne. unfold configured. rewrite lookup_insert_ne by exact Hne. reflexivity. Qed.

(** C4. Writing [wake_weight] with a value that is not a [float] raises the
    configuration type error and stores nothing; a strategy configured with
    such a value is not constructed (construction raises, and the object it
    leaves has no [wake_weight]). Writing a [float] always succeeds and
    stores the value. *)
Theorem wake_weight_setter_type_check value st (user : gmap string (pyval F)) lg h :
  let r := wake_weight_setter value st in
  if is_float value
  then fst r = Ok tt /\ _wake_weight (snd r) = Some value
  else
    fst r = Raise (ValueError (InvalidValueType "wake_weight" value)) /\
    _wake_weight (snd r) = _wake_weight st /\
    let c := FractionalNorm (Some (<["wake_weight" := value]> user)) lg h in
    (exists e, fst c = Raise e) /\
    fst (wake_weight (snd c)) = Raise AttributeError.
Proof.
  cbn zeta. destruct (is_float value) eqn:Hf.
  - destruct value; try discriminate.
    rewrite wake_weight_setter_float. cbn.
    destruct (feqb x (of_Q 1)); cbn; auto.
  - rewrite (wake_weight_setter_not_float _ _ Hf). cbn.
    split; [reflexivity | split; [reflexivity |]].
    rewrite FractionalNorm_unfold, configured_insert.
    match goal with |- context [norm_order_setter ?v ?s] =>
      pose proof (norm_order_setter_state v s) as Hst;
      destruct (norm_order_setter v s) as [[[]|e] st1] end;
      cbn in Hst; destruct Hst as (_ & _ & _ & Hw & _).
    + rewrite (wake_weight_setter_not_float _ _ Hf). cbn.
      unfold wake_weight. cbn. rewrite Hw. eauto.
    + cbn. unfold wake_weight. rewrite Hw. eauto.
Qed.

(** C10. Writing [norm_order] with an array of more than one element
    raises: the value is stored first, and the truth value of the
    elementwise comparison with the default is then ambiguous, so that the
    setter raises before it logs anything. A configuration whose
    [norm_order] is such an array fails at construction. *)
Theorem norm_order_setter_array_raises a st (user : gmap string (pyval F)) lg h :
  1 < length (data a) ->
  let r := norm_order_setter (VArray a) st in
  fst r = Raise (ValueError AmbiguousTruth) /\
  _norm_order (snd r) = Some (VArray a) /\
  logger (snd r) = logger st /\
  fst (FractionalNorm (Some (<["norm_order" := VArray a]> user)) lg h) =
    Raise (ValueError AmbiguousTruth).
Proof.
  intros Hlen. cbn zeta.
  assert (Ht : truth (F:=F) (py_ne (VArray a) (of_Q (3 # 2))) =
               Raise (ValueError AmbiguousTruth)).
  { cbn. destruct (data a) as [|x [|y l]]; cbn in Hlen; try lia. reflexivity. }
  rewrite FractionalNorm_unfold, configured_insert.
  rewrite !norm_order_setter_unfold, Ht. cbn. auto.
Qed.

(** ** Broadcasting of arrays of one shape *)

Lemma broadcast_dim_refl d : broadcast_dim d d = Some d.
Proof. unfold broadcast_dim. rewrite decide_True by reflexivity. reflexivity. Qed.

Lemma broadcast_rev_refl s : broadcast_rev s s = Some s.
Proof.
  induction s as [|d s IH]; cbn; [reflexivity |].
  rewrite broadcast_dim_refl, IH. reflexivity.
Qed.

Lemma broadcast_shapes_refl s : broadcast_shapes s s = Some s.
Proof.
  unfold broadcast_shapes. rewrite broadcast_rev_refl. cbn.
  rewrite reverse_involutive. reflexivity.
Qed.

Lemma pad_shape_refl s : pad_shape (length s) s = s.
Proof. unfold pad_shape. rewrite Nat.sub_diag. reflexivity. Qed.

(** Cutting a list of [n * k] elements into [n] rows of [k] and joining
    the rows gives the list back. *)
Lemma concat_rows {A} (k n : nat) (d : list A) :
  length d = n * k ->
  concat (map (fun i => take k (drop (i * k) d)) (seq 0 n)) = d.
Proof.
  revert d. induction n as [|n IH]; intros d Hlen.
  - destruct d; [reflexivity | discriminate].
  - cbn [seq map concat]. rewrite <- seq_shift, map_map.
    rewrite Nat.mul_0_l, drop_0.
    erewrite map_ext; [rewrite (IH (drop k d)) |].
    + apply take_drop.
    + rewrite length_drop. lia.
    + intros i. cbn beta. rewrite drop_drop. do 2 f_equal; lia.
Qed.

Lemma expand_refl (s : list nat) (d : list F) :
  length d = product s -> expand s s d = d.
Proof.
  revert d. induction s as [|n s IH]; intros d Hlen; cbn; [reflexivity |].
  rewrite decide_True by reflexivity.
  change (length d = n * product s) in Hlen.
  etransitivity; [| exact (concat_rows (product s) n d Hlen)].
  f_equal. apply map_ext_in. intros i Hi%in_seq.
  apply IH. rewrite length_take, length_drop, Hlen.
  assert (S i * product s <= n * product s) by (apply Nat.mul_le_mono_r; lia).
  lia.
Qed.

Lemma broadcast_to_refl a : wf_array a -> broadcast_to (shape a) a = data a.
Proof.
  intros Hwf. unfold broadcast_to. rewrite pad_shape_refl.
  apply expand_refl. exact Hwf.
Qed.

(** On two arrays of one shape an elementwise operation pairs the elements
    in order. *)
Lemma ufunc_same_shape (f : F -> F -> F) a b :
  wf_array a -> wf_array b -> shape a = shape b ->
  ufunc f a b = Ok (NdArray (shape a) (zip_with f (data a) (data b))).
Proof.
  intros Ha Hb Hs. unfold ufunc. rewrite <- Hs, broadcast_shapes_refl.
  rewrite (broadcast_to_refl a Ha).
  rewrite Hs, (broadcast_to_refl b Hb). reflexivity.
Qed.

(** The outcome of an elementwise operation, apart from the elements, is
    decided by the shapes. *)
Lemma ufunc_comm (f : F -> F -> F) a b :
  (forall x y, f x y = f y x) -> shape a = shape b ->
  ufunc f a b = ufunc f b a.
Proof.
  intros Hf Hs. unfold ufunc. rewrite Hs.
  destruct (broadcast_shapes (shape b) (shape b)) as [s|]; [| reflexivity].
  do 2 f_equal.
  unfold broadcast_to. rewrite Hs.
  generalize (expand (pad_shape (length s) (shape b)) s (data a)).
  generalize (expand (pad_shape (length s) (shape b)) s (data b)).
  intros l1 l2. revert l1. induction l2 as [|y l2 IH]; intros [|x l1]; cbn; try reflexivity.
  rewrite Hf, IH. reflexivity.
Qed.

(** ** The monad *)

Lemma bind_ok {A B} (m : M F A) (k : A -> M F B) st x st' :
  m st = (Ok x, st') -> bind m k st = k x st'.
Proof. intros Hm. unfold bind. rewrite Hm. reflexivity. Qed.

Lemma bind_raise {A B} (m : M F A) (k : A -> M F B) st e st' :
  m st = (Raise e, st') -> bind m k st = (Raise e, st').
Proof. intros Hm. unfold bind. rewrite Hm. reflexivity. Qed.

Lemma bind_inv_ok {A B} (m : M F A) (k : A -> M F B) st y st' :
  bind m k st = (Ok y, st') ->
  exists x st1, m st = (Ok x, st1) /\ k x st1 = (Ok y, st').
Proof.
  unfold bind. destruct (m st) as [[x|e] st1]; [eauto | discriminate].
Qed.

(** ** Frames *)

Lemma frame_refl st : frame st st.
Proof. unfold frame. auto 10. Qed.

Lemma frame_trans st1 st2 st3 : frame st1 st2 -> frame st2 st3 -> frame st1 st3.
Proof.
  unfold frame. intros (? & ? & ? & ? & ? & ?) (? & ? & ? & ? & ? & ?).
  repeat split; try congruence. etransitivity; eassumption.
Qed.

Lemma frame_lookup st st' l a :
  frame st st' -> heap st !! l = Some a -> heap st' !! l = Some a.
Proof. intros (_ & _ & _ & _ & _ & Hsub) Hl. exact (lookup_weaken _ _ _ _ Hl Hsub). Qed.

Lemma frame_fresh st st' l :
  frame st st' -> heap st' !! l = None -> heap st !! l = None.
Proof. intros (_ & _ & _ & _ & _ & Hsub) Hl. exact (lookup_weaken_None _ _ _ Hl Hsub). Qed.

Lemma allocates_only_lift {A} (r : result F A) : allocates_only (lift r).
Proof. intros st. apply frame_refl. Qed.

Lemma allocates_only_deref l : allocates_only (deref (F:=F) l).
Proof. intros st. unfold deref. destruct (heap st !! l); apply frame_refl. Qed.

Lemma allocates_only_norm_order : allocates_only (norm_order (F:=F)).
Proof. intros st. unfold norm_order. destruct (_norm_order st); apply frame_refl. Qed.

(** A new array is stored where there was none. *)
Lemma alloc_run a st :
  exists l st',
    alloc a st = (Ok l, st') /\
    heap st !! l = None /\ heap st' !! l = Some a /\ frame st st'.
Proof.
  assert (Hfresh : heap st !! fresh (dom (heap st)) = None).
  { apply not_elem_of_dom. apply is_fresh. }
  eexists _, _. split; [reflexivity |]. cbn.
  split; [exact Hfresh |]. split; [apply lookup_insert_eq |].
  unfold frame. cbn. repeat split. apply insert_subseteq. exact Hfresh.
Qed.

Lemma allocates_only_alloc a : allocates_only (alloc a).
Proof.
  intros st. destruct (alloc_run a st) as (l & st' & -> & _ & _ & Hf). exact Hf.
Qed.

Lemma allocates_only_bind {A B} (m : M F A) (k : A -> M F B) :
  allocates_only m -> (forall x, allocates_only (k x)) -> allocates_only (bind m k).
Proof.
  intros Hm Hk st. unfold bind. specialize (Hm st).
  destruct (m st) as [[x|e] st1]; cbn in *; [| exact Hm].
  eapply frame_trans; [exact Hm | apply Hk].
Qed.

Lemma allocates_only_np_power u p : allocates_only (np_power u p).
Proof.
  unfold np_power.
  repeat (apply allocates_only_bind; [| intros ?]);
    auto using allocates_only_deref, allocates_only_lift, allocates_only_alloc.
Qed.

Lemma allocates_only_np_add u v : allocates_only (np_add (F:=F) u v).
Proof.
  unfold np_add.
  repeat (apply allocates_only_bind; [| intros ?]);
    auto using allocates_only_deref, allocates_only_lift, allocates_only_alloc.
Qed.

Lemma allocates_only_function u_field u_wake turbnum :
  allocates_only (function (F:=F) u_field u_wake turbnum).
Proof.
  unfold function.
  repeat (apply allocates_only_bind; [| intros ?]);
    auto using allocates_only_norm_order, allocates_only_lift,
               allocates_only_deref, allocates_only_alloc.
Qed.

(** The frame of one step that ran. *)
Lemma allocates_only_step {A} (m : M F A) st r st' :
  allocates_only m -> m st = (r, st') -> frame st st'.
Proof. intros Hm Hrun. specialize (Hm st). rewrite Hrun in Hm. exact Hm. Qed.

(** ** Running the NumPy operations *)

Lemma deref_inv l st r st' : deref l st = (r, st') -> st' = st.
Proof. unfold deref. destruct (heap st !! l); congruence. Qed.

Lemma lift_inv {A} (x : result F A) st r st' : lift x st = (r, st') -> st' = st.
Proof. unfold lift. congruence. Qed.

(** [u ** p] on a reference to [a]: the array [power a p], stored where
    there was none, or the exception [power a p] raises. *)
Lemma np_power_run u p a st :
  heap st !! u = Some a ->
  match power a p with
  | Ok r =>
      exists l st',
        np_power u p st = (Ok l, st') /\
        heap st !! l = None /\ heap st' !! l = Some r /\ frame st st'
  | Raise e => np_power u p st = (Raise e, st)
  end.
Proof.
  intros Hu. unfold np_power.
  rewrite (bind_ok _ _ st a st) by (unfold deref; rewrite Hu; reflexivity).
  destruct (power a p) as [r|e].
  - rewrite (bind_ok _ _ st r st) by reflexivity. apply alloc_run.
  - rewrite (bind_raise _ _ st e st) by reflexivity. reflexivity.
Qed.

Lemma np_add_run u v a b st :
  heap st !! u = Some a -> heap st !! v = Some b ->
  match ufunc fadd a b with
  | Ok r =>
      exists l st',
        np_add u v st = (Ok l, st') /\
        heap st !! l = None /\ heap st' !! l = Some r /\ frame st st'
  | Raise e => np_add u v st = (Raise e, st)
  end.
Proof.
  intros Hu Hv. unfold np_add.
  rewrite (bind_ok _ _ st a st) by (unfold deref; rewrite Hu; reflexivity).
  rewrite (bind_ok _ _ st b st) by (unfold deref; rewrite Hv; reflexivity).
  destruct (ufunc fadd a b) as [r|e].
  - rewrite (bind_ok _ _ st r st) by reflexivity. apply alloc_run.
  - rewrite (bind_raise _ _ st e st) by reflexivity. reflexivity.
Qed.

(** An array that [u ** p] returns is a new one. *)
Lemma np_power_inv u p st l st' :
  np_power u p st = (Ok l, st') ->
  heap st !! l = None /\ is_Some (heap st' !! l).
Proof.
  unfold np_power. intros H.
  apply bind_inv_ok in H as (a & s1 & H1 & H). apply deref_inv in H1 as ->.
  apply bind_inv_ok in H as (r & s2 & H2 & H). apply lift_inv in H2 as ->.
  destruct (alloc_run r st) as (l' & st'' & Ha & Hnew & Hl & _).
  rewrite Ha in H. injection H as <- <-. eauto.
Qed.

(** ** Running [function] *)

(** When [norm_order[turbnum]] evaluates to [p] and the two references
    denote arrays, [function] returns the array [combined] describes, or
    raises what it raises. *)
Lemma function_run st value turbnum p u_field u_wake field wake :
  _norm_order st = Some value -> getitem value turbnum = Ok p ->
  heap st !! u_field = Some field -> heap st !! u_wake = Some wake ->
  returned (function u_field u_wake turbnum st) = combined p field wake.
Proof.
  intros Hn Hg Hf Hw. unfold function, combined.
  rewrite (bind_ok _ _ st value st) by (unfold norm_order; rewrite Hn; reflexivity).
  rewrite (bind_ok _ _ st p st) by (unfold lift; rewrite Hg; reflexivity).
  pose proof (np_power_run u_wake p wake st Hw) as H1.
  destruct (power wake p) as [wp|e]; cbn [and_then];
    [| rewrite (bind_raise _ _ _ _ _ H1); reflexivity].
  destruct H1 as (l1 & st1 & H1 & _ & Hl1 & Hfr1). rewrite (bind_ok _ _ _ _ _ H1).
  pose proof (np_power_run u_field p field st1 (frame_lookup _ _ _ _ Hfr1 Hf)) as H2.
  destruct (power field p) as [fp|e]; cbn [and_then];
    [| rewrite (bind_raise _ _ _ _ _ H2); reflexivity].
  destruct H2 as (l2 & st2 & H2 & _ & Hl2 & Hfr2). rewrite (bind_ok _ _ _ _ _ H2).
  pose proof (np_add_run l1 l2 wp fp st2 (frame_lookup _ _ _ _ Hfr2 Hl1) Hl2) as H3.
  destruct (ufunc fadd wp fp) as [total|e]; cbn [and_then];
    [| rewrite (bind_raise _ _ _ _ _ H3); reflexivity].
  destruct H3 as (l3 & st3 & H3 & _ & Hl3 & _). rewrite (bind_ok _ _ _ _ _ H3).
  destruct (truediv_one p) as [root|e]; cbn [and_then];
    [| rewrite (bind_raise _ _ st3 e st3) by reflexivity; reflexivity].
  rewrite (bind_ok _ _ st3 root st3) by reflexivity.
  pose proof (np_power_run l3 root total st3 Hl3) as H4.
  destruct (power total root) as [r|e]; [| rewrite H4; reflexivity].
  destruct H4 as (l4 & st4 & -> & _ & Hl4 & _). cbn. rewrite Hl4. reflexivity.
Qed.

(** The array [function] returns is a new one, held by the store. *)
Lemma function_returns_new u_field u_wake turbnum st l st' :
  function u_field u_wake turbnum st = (Ok l, st') ->
  heap st !! l = None /\ is_Some (heap st' !! l).
Proof.
  unfold function. intros H.
  apply bind_inv_ok in H as (v & s1 & H1 & H).
  apply (allocates_only_step _ _ _ _ allocates_only_norm_order) in H1.
  apply bind_inv_ok in H as (p & s2 & H2 & H). apply lift_inv in H2 as ->.
  apply bind_inv_ok in H as (l1 & s3 & H3 & H).
  apply (allocates_only_step _ _ _ _ (allocates_only_np_power _ _)) in H3.
  apply bind_inv_ok in H as (l2 & s4 & H4 & H).
  apply (allocates_only_step _ _ _ _ (allocates_only_np_power _ _)) in H4.
  apply bind_inv_ok in H as (l3 & s5 & H5 & H).
  apply (allocates_only_step _ _ _ _ (allocates_only_np_add _ _)) in H5.
  apply bind_inv_ok in H as (root & s6 & H6 & H). apply lift_inv in H6 as ->.
  apply np_power_inv in H as [Hnew Hl]. split; [| exact Hl].
  eapply frame_fresh; [| exact Hnew].
  eauto using frame_trans.
Qed.

(** ** The fractional norm *)

(** The ints float64 holds exactly are within its range. *)
Lemma exact_limit_fits (z : Z) :
  (Z.abs z <= exact_limit)%Z -> (Z.abs z < float_limit)%Z.
Proof.
  assert (H : (exact_limit < float_limit)%Z) by reflexivity.
  revert H. generalize exact_limit float_limit. lia.
Qed.

(** An element of an indexed collection is a number: a Python number, or
    a float64 scalar. *)
Lemma getitem_indexed_collection value t p :
  indexed_collection value -> getitem value (Some t) = Ok p ->
  (exists n, p = IPy n) \/ (exists x, p = INp x).
Proof.
  destruct value as [| | | |l|d|a]; cbn; try contradiction; intros Hc Hg.
  - destruct (py_index (length l) t) as [k|]; [| discriminate].
    destruct (l !! k); [| discriminate]. injection Hg as <-. eauto.
  - destruct (d !! t); [| discriminate]. injection Hg as <-. eauto.
  - destruct (shape a) as [|n [|m rest]]; try discriminate.
    destruct (py_index n t) as [k|]; [| discriminate].
    destruct (data a !! k); [| discriminate]. injection Hg as <-. eauto.
Qed.

(** The reciprocal of a number is a number. *)
Lemma truediv_one_scalar p q root :
  scalar p = Some q -> truediv_one p = Ok root ->
  scalar root = Some (fdiv (of_Z 1) q).
Proof.
  destruct p as [[z|x]|s|x|a]; unfold scalar, truediv_one; intros Hq Hr;
    try discriminate.
  - destruct (decide (Z.abs z <= exact_limit)%Z); [| discriminate].
    injection Hq as <-.
    destruct (decide (z = 0%Z)); [discriminate |]. injection Hr as <-. reflexivity.
  - injection Hq as <-.
    destruct (feqb x (of_Z 0)); [discriminate |]. injection Hr as <-. reflexivity.
  - injection Hq as <-. injection Hr as <-. reflexivity.
Qed.

(** Raising an array to a number raises each element. *)
Lemma power_scalar a p q :
  scalar p = Some q ->
  power a p = Ok (NdArray (shape a) (map (fun x => fpow x q) (data a))).
Proof.
  destruct p as [[z|x]|s|x|b]; unfold scalar, power, to_float, float_of_int;
    intros Hq; try discriminate.
  - destruct (decide (Z.abs z <= exact_limit)%Z) as [Hz|]; [| discriminate].
    injection Hq as <-.
    rewrite decide_True by exact (exact_limit_fits z Hz). reflexivity.
  - injection Hq as <-. reflexivity.
  - injection Hq as <-. reflexivity.
Qed.

Lemma map_zip_with_map (g h : F -> F) (f : F -> F -> F) (l1 l2 : list F) :
  map h (zip_with f (map g l1) (map g l2)) =
  zip_with (fun x y => h (f (g x) (g y))) l1 l2.
Proof.
  revert l2. induction l1 as [|x l1 IH]; intros [|y l2]; cbn; try reflexivity.
  rewrite IH. reflexivity.
Qed.

(** With a number [p] as exponent and two arrays of one shape, [combined]
    is the fractional norm of the elements, in order; it raises when [1 / p]
    does. *)
Lemma combined_scalar p q field wake :
  scalar p = Some q ->
  wf_array field -> wf_array wake -> shape field = shape wake ->
  combined p field wake =
    and_then (truediv_one p) (fun _ =>
      Ok (NdArray (shape field)
            (zip_with (fractional_norm q (fdiv (of_Z 1) q)) (data wake) (data field)))).
Proof.
  intros Hq Hf Hw Hs. unfold combined.
  rewrite (power_scalar wake p q Hq), (power_scalar field p q Hq). cbn [and_then].
  rewrite ufunc_same_shape; cbn [shape data].
  - cbn [and_then].
    destruct (truediv_one p) as [root|e] eqn:Hr; cbn [and_then]; [| reflexivity].
    rewrite (power_scalar _ root _ (truediv_one_scalar _ _ _ Hq Hr)).
    cbn [shape data]. rewrite map_zip_with_map, Hs. reflexivity.
  - unfold wf_array. cbn. rewrite length_map. exact Hw.
  - unfold wf_array. cbn. rewrite length_map. exact Hf.
  - symmetry. exact Hs.
Qed.

(** The reciprocal of a number can only raise [ZeroDivisionError]. *)
Lemma truediv_one_raises p q e :
  scalar p = Some q -> truediv_one p = Raise e -> e = ZeroDivisionError.
Proof.
  destruct p as [[z|x]|s|x|a]; unfold scalar, truediv_one; intros Hq Hr;
    try discriminate.
  - destruct (decide (z = 0%Z)); congruence.
  - destruct (feqb x (of_Z 0)); congruence.
Qed.

(** An [int] exponent beyond the range of float64: the first power raises
    [OverflowError], and nothing has been computed. *)
Lemma function_overflow st value turbnum z u_field u_wake wake :
  _norm_order st = Some value ->
  getitem value turbnum = Ok (IPy (NInt z)) ->
  (float_limit <= Z.abs z)%Z ->
  heap st !! u_wake = Some wake ->
  function u_field u_wake turbnum st = (Raise OverflowError, st).
Proof.
  intros Hn Hg Hz Hw. unfold function.
  rewrite (bind_ok _ _ st value st) by (unfold norm_order; rewrite Hn; reflexivity).
  rewrite (bind_ok _ _ st (IPy (NInt z)) st) by (unfold lift; rewrite Hg; reflexivity).
  pose proof (np_power_run u_wake (IPy (NInt z)) wake st Hw) as H1.
  unfold power, to_float, float_of_int in H1.
  rewrite decide_False in H1 by lia. cbn [and_then] in H1.
  rewrite (bind_raise _ _ _ _ _ H1). reflexivity.
Qed.

(** C1. When [norm_order] is a per-turbine indexed collection that holds
    the turbine index [t], [p = norm_order[t]] is a number. When float64
    holds it exactly (every [float], and every [int] up to [2 ^ 53]),
    [function] on two arrays of equal shape returns the array of that shape
    whose elements are [(wake ** p + field ** p) ** (1 / p)], element by
    element; the one case in which it does not return is that of a zero
    Python number [p], where [1 / p] in this expression raises
    [ZeroDivisionError], and so does [function]. When [p] is an [int]
    beyond the range of float64, [wake ** p] in this expression raises
    [OverflowError], and so does [function]. The sign of the elements plays
    no part. *)
Theorem function_elementwise st value t p u_field u_wake field wake :
  _norm_order st = Some value ->
  indexed_collection value ->
  getitem value (Some t) = Ok p ->
  heap st !! u_field = Some field ->
  heap st !! u_wake = Some wake ->
  wf_array field -> wf_array wake -> shape field = shape wake ->
  ((exists n, p = IPy n) \/ (exists x, p = INp x)) /\
  (forall q, scalar p = Some q ->
     match truediv_one p with
     | Ok _ =>
         returned (function u_field u_wake (Some t) st) =
           Ok (NdArray (shape field)
                 (zip_with (fractional_norm q (fdiv (of_Z 1) q))
                           (data wake) (data field)))
     | Raise e =>
         e = ZeroDivisionError /\
         returned (function u_field u_wake (Some t) st) = Raise ZeroDivisionError
     end) /\
  (forall z, p = IPy (NInt z) -> (float_limit <= Z.abs z)%Z ->
     returned (function u_field u_wake (Some t) st) = Raise OverflowError).
Proof.
  intros Hn Hc Hg Hf Hw Hwf1 Hwf2 Hs.
  split; [exact (getitem_indexed_collection _ _ _ Hc Hg) |]. split.
  - intros q Hq.
    rewrite (function_run _ _ _ _ _ _ _ _ Hn Hg Hf Hw).
    rewrite (combined_scalar p q field wake Hq Hwf1 Hwf2 Hs).
    destruct (truediv_one p) as [root|e] eqn:Hr; cbn [and_then]; [reflexivity |].
    pose proof (truediv_one_raises p q e Hq Hr) as ->. auto.
  - intros z -> Hz.
    rewrite (function_overflow _ _ _ _ u_field u_wake _ Hn Hg Hz Hw). reflexivity.
Qed.

(** C2. The spec's shape scenario, on the code: a strategy constructed
    with the scalar [norm_order = 2] is constructed, but every call of
    [function] on it raises [TypeError], because [function] subscripts
    [norm_order] and an [int] is not subscriptable. No array is returned. *)
Theorem function_scalar_norm_order_raises lg h u_field u_wake turbnum :
  let c := FractionalNorm (Some (<["norm_order" := VInt 2]> ∅)) lg h in
  fst c = Ok tt /\
  _norm_order (snd c) = Some (VInt 2) /\
  function u_field u_wake turbnum (snd c) = (Raise TypeError, snd c).
Proof.
  cbn zeta. rewrite FractionalNorm_unfold, configured_insert.
  rewrite configured_insert_ne by discriminate.
  unfold configured. rewrite lookup_empty.
  rewrite norm_order_setter_unfold. cbn.
  destruct (feqb (of_Z 2) (of_Q (3 # 2))); cbn;
    rewrite wake_weight_setter_float; cbn;
    destruct (feqb (of_Q 1) (of_Q 1)); cbn; auto.
Qed.

(** The same happens with the defaults: the tuned [norm_order] is the
    [float] [1.5]. *)
Lemma function_default_norm_order_raises lg h u_field u_wake turbnum :
  let c := FractionalNorm (Some ∅) lg h in
  fst c = Ok tt /\
  function u_field u_wake turbnum (snd c) = (Raise TypeError, snd c).
Proof.
  cbn zeta. rewrite FractionalNorm_unfold. unfold configured.
  rewrite !lookup_empty.
  rewrite norm_order_setter_unfold. cbn.
  destruct (feqb (of_Q (3 # 2)) (of_Q (3 # 2))); cbn;
    rewrite wake_weight_setter_float; cbn;
    destruct (feqb (of_Q 1) (of_Q 1)); cbn; auto.
Qed.

(** ** What [function] reads *)

Lemma reads_inputs_only_lift {A} (r : result F A) : reads_inputs_only (lift r).
Proof. intros st1 st2 Hs. cbn. auto. Qed.

Lemma reads_inputs_only_norm_order : reads_inputs_only (norm_order (F:=F)).
Proof.
  intros st1 st2 Hs. pose proof Hs as [Hn Hh]. unfold norm_order. rewrite Hn.
  destruct (_norm_order st2); cbn; (split; [reflexivity | exact Hs]).
Qed.

Lemma reads_inputs_only_deref l : reads_inputs_only (deref (F:=F) l).
Proof.
  intros st1 st2 Hs. pose proof Hs as [Hn Hh]. unfold deref. rewrite Hh.
  destruct (heap st2 !! l); cbn; (split; [reflexivity | exact Hs]).
Qed.

Lemma reads_inputs_only_alloc a : reads_inputs_only (alloc a).
Proof.
  intros st1 st2 [Hn Hh]. unfold alloc, same_inputs. cbn. rewrite Hh, Hn.
  repeat split; reflexivity.
Qed.

Lemma reads_inputs_only_bind {A B} (m : M F A) (k : A -> M F B) :
  reads_inputs_only m -> (forall x, reads_inputs_only (k x)) ->
  reads_inputs_only (bind m k).
Proof.
  intros Hm Hk st1 st2 Hs. unfold bind.
  destruct (Hm st1 st2 Hs) as [Hr Hs'].
  destruct (m st1) as [[x1|e1] s1], (m st2) as [[x2|e2] s2];
    cbn in Hr, Hs'; try discriminate.
  - injection Hr as ->. apply Hk. exact Hs'.
  - injection Hr as ->. cbn. auto.
Qed.

Lemma reads_inputs_only_function u_field u_wake turbnum :
  reads_inputs_only (function (F:=F) u_field u_wake turbnum).
Proof.
  unfold function.
  repeat (apply reads_inputs_only_bind; [| intros ?]);
    auto using reads_inputs_only_norm_order, reads_inputs_only_lift,
               reads_inputs_only_deref, reads_inputs_only_alloc.
Qed.

(** Construction with [wake_weight] configured as a [float]: the outcome
    is that of construction with the default [wake_weight]. *)
Lemma FractionalNorm_float_wake_weight (x : F) (user : gmap string (pyval F)) lg h :
  fst (FractionalNorm (Some (<["wake_weight" := VFloat x]> user)) lg h) =
  fst (FractionalNorm (Some (delete "wake_weight" user)) lg h).
Proof.
  rewrite !FractionalNorm_unfold, configured_insert.
  rewrite configured_insert_ne by discriminate.
  unfold configured. rewrite lookup_delete_eq, lookup_delete_ne by discriminate.
  rewrite !norm_order_setter_unfold. cbn zeta.
  destruct (truth _) as [[|]|e]; cbn; rewrite ?wake_weight_setter_float; cbn;
    repeat match goal with |- context [feqb ?u ?v] => destruct (feqb u v) end;
    reflexivity.
Qed.

(** C8. Writing [wake_weight] with a [float] succeeds and stores it. When
    the value differs from the tuned default [1.0] exactly one advisory
    record is logged, noting the deviation; when it equals the default
    nothing is logged. The deviation is no error: construction with the
    value has the outcome of construction with the default (and succeeds
    when nothing else is configured), and [function] returns or raises the
    same whatever [wake_weight] is. *)
Theorem wake_weight_deviation_is_advisory (x : F) st
    (user : gmap string (pyval F)) lg h u_field u_wake turbnum :
  let r := wake_weight_setter (VFloat x) st in
  fst r = Ok tt /\
  _wake_weight (snd r) = Some (VFloat x) /\
  logger (snd r) =
    (logger st ++
     if feqb x (of_Q 1) then []
     else [LogInfo (NotTuned "wake_weight" (VFloat x) (VFloat (of_Q 1)))])%list /\
  fst (FractionalNorm (Some (<["wake_weight" := VFloat x]> ∅)) lg h) = Ok tt /\
  fst (FractionalNorm (Some (<["wake_weight" := VFloat x]> user)) lg h) =
    fst (FractionalNorm (Some (delete "wake_weight" user)) lg h) /\
  fst (function u_field u_wake turbnum (snd r)) =
    fst (function u_field u_wake turbnum st) /\
  heap (snd (function u_field u_wake turbnum (snd r))) =
    heap (snd (function u_field u_wake turbnum st)).
Proof.
  cbn zeta.
  assert (Hsame : same_inputs (snd (wake_weight_setter (VFloat x) st)) st).
  { rewrite wake_weight_setter_float. cbn.
    destruct (feqb x (of_Q 1)); split; reflexivity. }
  destruct (reads_inputs_only_function u_field u_wake turbnum _ _ Hsame)
    as [Hout [_ Hheap]].
  split; [| split; [| split; [| split; [| split; [| split]]]]];
    try assumption.
  - rewrite wake_weight_setter_float. cbn. destruct (feqb x (of_Q 1)); reflexivity.
  - rewrite wake_weight_setter_float. cbn. destruct (feqb x (of_Q 1)); reflexivity.
  - rewrite wake_weight_setter_float. cbn.
    destruct (feqb x (of_Q 1)); cbn; [rewrite app_nil_r |]; reflexivity.
  - rewrite FractionalNorm_float_wake_weight, delete_empty.
    apply FractionalNorm_empty.
  - apply FractionalNorm_float_wake_weight.
Qed.

(** With a number as exponent, a defined reciprocal and two arrays of one
    shape, [combined] gives an array of that shape. *)
Lemma combined_scalar_shape p q root field wake :
  scalar p = Some q -> truediv_one p = Ok root -> shape field = shape wake ->
  exists out, combined p field wake = Ok out /\ shape out = shape field.
Proof.
  intros Hq Hr Hs. unfold combined.
  rewrite (power_scalar wake p q Hq), (power_scalar field p q Hq). cbn [and_then].
  unfold ufunc. cbn [shape data]. rewrite <- Hs, broadcast_shapes_refl.
  cbn [and_then]. rewrite Hr. cbn [and_then].
  rewrite (power_scalar _ root _ (truediv_one_scalar _ _ _ Hq Hr)).
  eexists. split; reflexivity.
Qed.

(** C9, as amended. Every call of [function], whether it returns or
    raises, changes no array of the store, so neither of its two inputs, and
    leaves the attributes of the strategy ([norm_order], [wake_weight],
    [model_string], the configuration) and the log as they were. An array it
    returns is a new one. When [norm_order[turbnum]] is a number that
    float64 holds exactly, with a defined reciprocal, and the inputs are of
    one shape, the call does return, and the array returned has the shape of
    the inputs. (An exponent that is itself an array is broadcast against
    the inputs, and the result can have another shape.) *)
Theorem function_frame st u_field u_wake turbnum :
  let r := function u_field u_wake turbnum st in
  (forall l a, heap st !! l = Some a -> heap (snd r) !! l = Some a) /\
  (parameter_dictionary (snd r) = parameter_dictionary st /\
   model_string (snd r) = model_string st /\
   _norm_order (snd r) = _norm_order st /\
   _wake_weight (snd r) = _wake_weight st /\
   logger (snd r) = logger st) /\
  (forall l, fst r = Ok l -> heap st !! l = None /\ is_Some (heap (snd r) !! l)) /\
  (forall value p q root field wake,
     _norm_order st = Some value -> getitem value turbnum = Ok p ->
     scalar p = Some q -> truediv_one p = Ok root ->
     heap st !! u_field = Some field -> heap st !! u_wake = Some wake ->
     shape field = shape wake ->
     exists l out,
       fst r = Ok l /\ heap st !! l = None /\
       heap (snd r) !! l = Some out /\ shape out = shape field).
Proof.
  cbn zeta.
  pose proof (allocates_only_function u_field u_wake turbnum st) as Hfr.
  assert (Hnew : forall l, fst (function u_field u_wake turbnum st) = Ok l ->
            heap st !! l = None /\
            is_Some (heap (snd (function u_field u_wake turbnum st)) !! l)).
  { intros l Hl. apply (function_returns_new u_field u_wake turbnum).
    destruct (function u_field u_wake turbnum st) as [r st'].
    cbn in Hl. subst r. reflexivity. }
  split; [| split; [| split]].
  - intros l a. apply frame_lookup. exact Hfr.
  - destruct Hfr as (? & ? & ? & ? & ? & _). auto.
  - exact Hnew.
  - intros value p q root field wake Hn Hg Hq Hr Hf Hw Hs.
    pose proof (function_run _ _ _ _ _ _ _ _ Hn Hg Hf Hw) as Hrun.
    destruct (combined_scalar_shape p q root field wake Hq Hr Hs) as (out & Hc & Hshape).
    rewrite Hc in Hrun. clear Hfr.
    destruct (function u_field u_wake turbnum st) as [[l|e] st'];
      cbn in Hrun, Hnew |- *; [| discriminate].
    destruct (Hnew l eq_refl) as [Hfresh _].
    destruct (heap st' !! l) as [out'|] eqn:Hl; [| discriminate].
    injection Hrun as ->. exists l, out. auto.
Qed.

Section Laws.
Context `{!Float64Laws F}.

(** ** Commutativity *)

Lemma zip_with_comm (f : F -> F -> F) (l1 l2 : list F) :
  (forall x y, f x y = f y x) -> zip_with f l1 l2 = zip_with f l2 l1.
Proof.
  intros Hf. revert l2. induction l1 as [|x l1 IH]; intros [|y l2]; cbn; try reflexivity.
  rewrite Hf, IH. reflexivity.
Qed.

(** Whether [a ** p] raises, what it raises and the shape it gives are
    decided by the shape of [a]. *)
Lemma power_shape a b p :
  shape a = shape b ->
  match power a p, power b p with
  | Ok x, Ok y => shape x = shape y
  | Raise e1, Raise e2 => e1 = e2
  | _, _ => False
  end.
Proof.
  intros Hs. destruct p as [n|s|x|c]; unfold power.
  - destruct (to_float n); cbn [and_then shape]; [exact Hs | reflexivity].
  - reflexivity.
  - exact Hs.
  - unfold ufunc. rewrite Hs.
    destruct (broadcast_shapes (shape b) (shape c)); reflexivity.
Qed.

(** Swapping the two arrays, of one shape, does not change [combined]. *)
Lemma combined_comm p field wake :
  shape field = shape wake ->
  combined p field wake = combined p wake field.
Proof.
  intros Hs. unfold combined.
  pose proof (power_shape field wake p Hs) as Hp.
  destruct (power wake p) as [wp|e1], (power field p) as [fp|e2];
    cbn [and_then]; try contradiction; [| congruence].
  rewrite (ufunc_comm fadd wp fp fadd_comm) by (symmetry; exact Hp).
  reflexivity.
Qed.

(** C6. For two arrays of equal shape and a fixed [norm_order], swapping
    the base field and the wake gives the identical result: the same array
    is returned, or the same exception raised. This holds for every
    exponent and every sign of the elements, so for non-negative arrays and
    [p > 0]. *)
Theorem function_commutative st u_field u_wake turbnum field wake :
  heap st !! u_field = Some field ->
  heap st !! u_wake = Some wake ->
  shape field = shape wake ->
  returned (function u_field u_wake turbnum st) =
  returned (function u_wake u_field turbnum st).
Proof.
  intros Hf Hw Hs.
  destruct (_norm_order st) as [value|] eqn:Hn;
    [destruct (getitem value turbnum) as [p|e] eqn:Hg |].
  - rewrite (function_run _ _ _ _ _ _ _ _ Hn Hg Hf Hw).
    rewrite (function_run _ _ _ _ _ _ _ _ Hn Hg Hw Hf).
    apply combined_comm. exact Hs.
  - unfold function.
    rewrite !(bind_ok _ _ st value st) by (unfold norm_order; rewrite Hn; reflexivity).
    rewrite !(bind_raise _ _ st e st) by (unfold lift; rewrite Hg; reflexivity).
    reflexivity.
  - unfold function.
    rewrite !(bind_raise _ _ st AttributeError st)
      by (unfold norm_order; rewrite Hn; reflexivity).
    reflexivity.
Qed.

(** ** Linear superposition *)

(** The reciprocal of the exponent [1] is [1.0]. *)
Lemma truediv_one_is_one p :
  is_one p ->
  scalar p = Some (of_Z 1) /\
  exists root, truediv_one p = Ok root /\ scalar root = Some (of_Z 1).
Proof.
  intros [-> | [-> | ->]]; cbn.
  - split; [reflexivity |]. eexists. split; [reflexivity |]. cbn.
    rewrite fdiv_1_1. reflexivity.
  - split; [reflexivity |]. rewrite feqb_1_0.
    eexists. split; [reflexivity |]. cbn. rewrite fdiv_1_1. reflexivity.
  - split; [reflexivity |]. eexists. split; [reflexivity |]. cbn.
    rewrite fdiv_1_1. reflexivity.
Qed.

(** C7. When the exponent [norm_order[turbnum]] is [1], [function] on two
    arrays of equal shape returns their elementwise sum, [field + wake].
    The sum is exact, so within any tolerance. *)
Theorem function_linear_superposition st value turbnum p u_field u_wake field wake :
  _norm_order st = Some value ->
  getitem value turbnum = Ok p ->
  is_one p ->
  heap st !! u_field = Some field ->
  heap st !! u_wake = Some wake ->
  wf_array field -> wf_array wake -> shape field = shape wake ->
  returned (function u_field u_wake turbnum st) =
    Ok (NdArray (shape field) (zip_with fadd (data field) (data wake))).
Proof.
  intros Hn Hg Hone Hf Hw Hwf1 Hwf2 Hs.
  destruct (truediv_one_is_one p Hone) as (Hq & root & Hr & _).
  rewrite (function_run _ _ _ _ _ _ _ _ Hn Hg Hf Hw).
  rewrite (combined_scalar p _ field wake Hq Hwf1 Hwf2 Hs), Hr. cbn [and_then].
  do 2 f_equal. rewrite fdiv_1_1.
  rewrite (zip_with_comm fadd (data field) (data wake) fadd_comm).
  apply zip_with_ext; [| reflexivity..].
  intros w b0. unfold fractional_norm. rewrite !fpow_1_r. reflexivity.
Qed.

End Laws.

End Properties.

(** * Further properties of the class *)

Section FurtherProperties.
Context {F : Type} `{!Float64 F}.

Implicit Types (st : state F) (value : pyval F) (a b : ndarray F) (p : item F).

#[local] Arguments norm_order_setter : simpl never.
#[local] Arguments wake_weight_setter : simpl never.
#[local] Arguments FractionalNorm : simpl never.
#[local] Arguments function : simpl never.

(** ** Calls that cannot subscript [norm_order] *)

(** When the subscript raises, [function] raises the same and has done
    nothing. *)
Lemma function_getitem_raise st value turbnum e u_field u_wake :
  _norm_order st = Some value -> getitem value turbnum = Raise e ->
  function u_field u_wake turbnum st = (Raise e, st).
Proof.
  intros Hn Hg. unfold function.
  rewrite (bind_ok _ _ st value st) by (unfold norm_order; rewrite Hn; reflexivity).
  rewrite (bind_raise _ _ st e st) by (unfold lift; rewrite Hg; reflexivity).
  reflexivity.
Qed.

(** The turbine index matters through the subscript only. *)
Lemma function_turbnum_ext st value t1 t2 u_field u_wake :
  _norm_order st = Some value -> getitem value t1 = getitem value t2 ->
  function u_field u_wake t1 st = function u_field u_wake t2 st.
Proof.
  intros Hn Hg. unfold function, bind, norm_order, lift.
  rewrite Hn, Hg. reflexivity.
Qed.

(** X1. [function] works on a list, a dictionary or an array only. When
    the stored [norm_order] is [None], an [int] or a [float] (as the default
    [1.5] is), every call raises [TypeError]; when it is a string, every
    call raises [TypeError] or [IndexError]. In each case the call leaves the
    state exactly as it was: no array is computed. *)
Theorem function_needs_collection st value u_field u_wake turbnum :
  _norm_order st = Some value ->
  is_Some (heap st !! u_wake) ->
  match value with
  | VList _ | VDict _ | VArray _ => True
  | VStr _ =>
      exists e, function u_field u_wake turbnum st = (Raise e, st) /\
                (e = TypeError \/ e = IndexError)
  | VNone | VInt _ | VFloat _ =>
      function u_field u_wake turbnum st = (Raise TypeError, st)
  end.
Proof.
  intros Hn [wake Hw].
  destruct value as [|z|x|s|l|d|a]; try exact I;
    try (apply (function_getitem_raise _ _ _ _ _ _ Hn); destruct turbnum; reflexivity).
  destruct (getitem (F:=F) (VStr s) turbnum) as [p|e] eqn:Hg.
  - exists TypeError. split; [| left; reflexivity].
    assert (Hp : exists c, p = IStr c).
    { destruct turbnum as [t|]; cbn in Hg; [| discriminate].
      destruct (py_index (String.length s) t); [| discriminate].
      injection Hg as <-. eauto. }
    destruct Hp as [c ->]. unfold function.
    rewrite (bind_ok _ _ st (VStr s) st) by (unfold norm_order; rewrite Hn; reflexivity).
    rewrite (bind_ok _ _ st (IStr c) st) by (unfold lift; rewrite Hg; reflexivity).
    pose proof (np_power_run u_wake (IStr c) wake st Hw) as H1. cbn in H1.
    rewrite (bind_raise _ _ _ _ _ H1). reflexivity.
  - exists e. split; [exact (function_getitem_raise _ _ _ _ _ _ Hn Hg) |].
    destruct turbnum as [t|]; cbn in Hg.
    + destruct (py_index (String.length s) t); [discriminate |].
      injection Hg as <-. right; reflexivity.
    + injection Hg as <-. left; reflexivity.
Qed.

(** X2. Called without a turbine index ([turbnum = None], the default of
    the parameter), [function] can only work on an array: on a list, a
    string or a number it raises [TypeError], on a dictionary keyed by
    turbine index [KeyError], and it leaves the state as it was. *)
Theorem function_without_turbnum st value u_field u_wake :
  _norm_order st = Some value ->
  match value with
  | VArray _ => True
  | VDict _ => function u_field u_wake None st = (Raise KeyError, st)
  | VNone | VInt _ | VFloat _ | VStr _ | VList _ =>
      function u_field u_wake None st = (Raise TypeError, st)
  end.
Proof.
  intros Hn.
  destruct value; try exact I;
    apply (function_getitem_raise _ _ _ _ _ _ Hn); reflexivity.
Qed.

(** ** Turbine indices out of range, and negative ones *)

Lemma py_index_out_of_range (len : nat) (t : Z) :
  (t < - Z.of_nat len \/ Z.of_nat len <= t)%Z -> py_index len t = None.
Proof.
  intros Ht. unfold py_index.
  rewrite decide_False by lia. rewrite decide_False by lia. reflexivity.
Qed.

Lemma py_index_negative (len : nat) (t : Z) :
  (0 <= t < Z.of_nat len)%Z -> py_index len (t - Z.of_nat len) = py_index len t.
Proof.
  intros Ht. unfold py_index.
  rewrite (decide_False (P := (0 <= t - Z.of_nat len < Z.of_nat len)%Z)) by lia.
  rewrite (decide_True (P := (- Z.of_nat len <= t - Z.of_nat len < 0)%Z)) by lia.
  rewrite (decide_True (P := (0 <= t < Z.of_nat len)%Z)) by lia.
  f_equal. lia.
Qed.

(** X3. A turbine index that the collection does not hold is not recovered
    from: on a list or a one-dimensional array an index out of range raises
    [IndexError], on a dictionary a missing key raises [KeyError]. The call
    leaves the state as it was. *)
Theorem function_index_absent st u_field u_wake (t : Z) :
  (forall l, _norm_order st = Some (VList l) ->
     (t < - Z.of_nat (length l) \/ Z.of_nat (length l) <= t)%Z ->
     function u_field u_wake (Some t) st = (Raise IndexError, st)) /\
  (forall d, _norm_order st = Some (VDict d) -> d !! t = None ->
     function u_field u_wake (Some t) st = (Raise KeyError, st)) /\
  (forall a n, _norm_order st = Some (VArray a) -> shape a = [n] ->
     (t < - Z.of_nat n \/ Z.of_nat n <= t)%Z ->
     function u_field u_wake (Some t) st = (Raise IndexError, st)).
Proof.
  split; [| split].
  - intros l Hn Ht. apply (function_getitem_raise _ _ _ _ _ _ Hn).
    cbn. rewrite (py_index_out_of_range _ _ Ht). reflexivity.
  - intros d Hn Hd. apply (function_getitem_raise _ _ _ _ _ _ Hn).
    cbn. rewrite Hd. reflexivity.
  - intros a n Hn Hs Ht. apply (function_getitem_raise _ _ _ _ _ _ Hn).
    cbn. rewrite Hs, (py_index_out_of_range _ _ Ht). reflexivity.
Qed.

(** X4. A negative turbine index counts from the end and is not rejected:
    on a list of [n] exponents, or a one-dimensional array of [n], the call
    with index [t - n] is the call with index [t], for [0 <= t < n]. *)
Theorem function_negative_index st value (n : nat) (t : Z) u_field u_wake :
  _norm_order st = Some value ->
  match value with
  | VList l => length l = n
  | VArray a => shape a = [n]
  | _ => False
  end ->
  (0 <= t < Z.of_nat n)%Z ->
  function u_field u_wake (Some (t - Z.of_nat n)%Z) st =
  function u_field u_wake (Some t) st.
Proof.
  intros Hn Hv Ht. apply (function_turbnum_ext _ _ _ _ _ _ Hn).
  destruct value as [| | | |l| |a]; try contradiction; cbn.
  - rewrite Hv, (py_index_negative _ _ Ht). reflexivity.
  - rewrite Hv, (py_index_negative _ _ Ht). reflexivity.
Qed.

(** ** Inputs of different shapes *)

(** X5. With a number that float64 holds exactly as exponent, whether
    [function] returns is decided by the shapes of the two inputs as NumPy
    broadcasts them. When they are
    not compatible the call raises [ValueError] (even with a zero exponent:
    the sum is formed before [1 / p]); when they are, the call returns an
    array of the broadcast shape, unless [1 / p] raises
    [ZeroDivisionError]. *)
Theorem function_broadcast st value turbnum p q u_field u_wake field wake :
  _norm_order st = Some value ->
  getitem value turbnum = Ok p ->
  scalar p = Some q ->
  heap st !! u_field = Some field ->
  heap st !! u_wake = Some wake ->
  match broadcast_shapes (shape wake) (shape field) with
  | None =>
      returned (function u_field u_wake turbnum st) =
        Raise (ValueError BroadcastMismatch)
  | Some s =>
      match truediv_one p with
      | Ok _ =>
          exists out,
            returned (function u_field u_wake turbnum st) = Ok out /\
            shape out = s
      | Raise _ =>
          returned (function u_field u_wake turbnum st) = Raise ZeroDivisionError
      end
  end.
Proof.
  intros Hn Hg Hq Hf Hw.
  rewrite (function_run _ _ _ _ _ _ _ _ Hn Hg Hf Hw). unfold combined.
  rewrite (power_scalar wake p q Hq), (power_scalar field p q Hq). cbn [and_then].
  unfold ufunc. cbn [shape data].
  destruct (broadcast_shapes (shape wake) (shape field)) as [s|]; cbn [and_then];
    [| reflexivity].
  destruct (truediv_one p) as [root|e] eqn:Hr; cbn [and_then].
  - rewrite (power_scalar _ root _ (truediv_one_scalar _ _ _ Hq Hr)).
    eexists. split; reflexivity.
  - rewrite (truediv_one_raises p q e Hq Hr). reflexivity.
Qed.

(** ** Calls in sequence *)

(** X6. A call can be repeated: on the state a first call leaves, the same
    call returns an array with the same contents, or raises the same
    exception. *)
Theorem function_repeatable st u_field u_wake turbnum field wake :
  heap st !! u_field = Some field ->
  heap st !! u_wake = Some wake ->
  returned (function u_field u_wake turbnum (snd (function u_field u_wake turbnum st))) =
  returned (function u_field u_wake turbnum st).
Proof.
  intros Hf Hw.
  destruct (_norm_order st) as [value|] eqn:Hn;
    [destruct (getitem value turbnum) as [p|e] eqn:Hg |].
  - pose proof (allocates_only_function u_field u_wake turbnum st) as Hfr.
    rewrite (function_run st _ _ _ _ _ _ _ Hn Hg Hf Hw).
    apply function_run with (value := value); try exact Hg.
    + destruct Hfr as (_ & _ & -> & _). exact Hn.
    + exact (frame_lookup _ _ _ _ Hfr Hf).
    + exact (frame_lookup _ _ _ _ Hfr Hw).
  - rewrite (function_getitem_raise _ _ _ _ u_field u_wake Hn Hg). cbn [snd].
    rewrite (function_getitem_raise _ _ _ _ u_field u_wake Hn Hg). reflexivity.
  - assert (Hno : function u_field u_wake turbnum st = (Raise AttributeError, st)).
    { unfold function.
      rewrite (bind_raise _ _ st AttributeError st)
        by (unfold norm_order; rewrite Hn; reflexivity).
      reflexivity. }
    rewrite Hno. cbn [snd]. rewrite Hno. reflexivity.
Qed.

(** X7. Wakes are combined one after the other: the array one call returns
    is the base field of the next. With a number [p] that float64 holds
    exactly as exponent, a defined [1 / p] and arrays of one shape, combining the field with a first wake
    and the result with a second gives, element by element, the fractional
    norm of the second wake with the fractional norm of the first wake and
    the field. *)
Theorem function_chain st value turbnum p q root u_field u_wake1 u_wake2
    field wake1 wake2 :
  _norm_order st = Some value ->
  getitem value turbnum = Ok p ->
  scalar p = Some q ->
  truediv_one p = Ok root ->
  heap st !! u_field = Some field ->
  heap st !! u_wake1 = Some wake1 ->
  heap st !! u_wake2 = Some wake2 ->
  wf_array field -> wf_array wake1 -> wf_array wake2 ->
  shape field = shape wake1 -> shape field = shape wake2 ->
  exists l st1,
    function u_field u_wake1 turbnum st = (Ok l, st1) /\
    returned (function l u_wake2 turbnum st1) =
      Ok (NdArray (shape field)
            (zip_with (fractional_norm q (fdiv (of_Z 1) q)) (data wake2)
               (zip_with (fractional_norm q (fdiv (of_Z 1) q))
                  (data wake1) (data field)))).
Proof.
  intros Hn Hg Hq Hr Hf Hw1 Hw2 Hwf Hwf1 Hwf2 Hs1 Hs2.
  pose proof (function_run _ _ _ _ _ _ _ _ Hn Hg Hf Hw1) as Hrun.
  rewrite (combined_scalar p q field wake1 Hq Hwf Hwf1 Hs1), Hr in Hrun.
  cbn [and_then] in Hrun.
  pose proof (allocates_only_function u_field u_wake1 turbnum st) as Hfr.
  destruct (function u_field u_wake1 turbnum st) as [[l|e] st1];
    cbn [returned snd] in Hrun, Hfr; [| discriminate].
  destruct (heap st1 !! l) as [out|] eqn:Hl; [| discriminate].
  injection Hrun as ->.
  exists l, st1. split; [reflexivity |].
  assert (Hn1 : _norm_order st1 = Some value).
  { destruct Hfr as (_ & _ & -> & _). exact Hn. }
  rewrite (function_run _ _ _ _ _ _ _ _ Hn1 Hg Hl (frame_lookup _ _ _ _ Hfr Hw2)).
  rewrite (combined_scalar p q _ wake2 Hq); cbn [shape data].
  - rewrite Hr. reflexivity.
  - unfold wf_array. cbn [shape data]. rewrite length_zip_with.
    unfold wf_array in Hwf, Hwf1. rewrite Hwf1, Hwf, Hs1. lia.
  - exact Hwf2.
  - exact Hs2.
Qed.

(** ** The setters and construction *)

(** X8. A setter touches its own attribute and the log, nothing else:
    writing [norm_order] leaves [wake_weight] as it was and writing
    [wake_weight] leaves [norm_order] as it was, and neither changes
    [model_string], the configuration or the store of arrays. After a write
    of [wake_weight], reading it gives the value written when that is a
    [float], and what it gave before the write when the write was
    rejected. *)
Theorem setters_touch_own_attribute value st :
  let r1 := norm_order_setter value st in
  let r2 := wake_weight_setter value st in
  (_wake_weight (snd r1) = _wake_weight st /\
   model_string (snd r1) = model_string st /\
   parameter_dictionary (snd r1) = parameter_dictionary st /\
   heap (snd r1) = heap st) /\
  (_norm_order (snd r2) = _norm_order st /\
   model_string (snd r2) = model_string st /\
   parameter_dictionary (snd r2) = parameter_dictionary st /\
   heap (snd r2) = heap st) /\
  fst (wake_weight (snd r2)) =
    (if is_float value then Ok value else fst (wake_weight st)).
Proof.
  cbn zeta. split; [| split].
  - destruct (norm_order_setter_state value st) as (? & ? & _ & ? & ?). auto.
  - destruct (is_float value) eqn:Hfl.
    + destruct value; try discriminate.
      rewrite wake_weight_setter_float. cbn.
      destruct (feqb x (of_Q 1)); cbn; auto.
    + rewrite (wake_weight_setter_not_float _ _ Hfl). cbn. auto.
  - destruct (is_float value) eqn:Hfl.
    + destruct value; try discriminate.
      rewrite wake_weight_setter_float. cbn.
      destruct (feqb x (of_Q 1)); reflexivity.
    + rewrite (wake_weight_setter_not_float _ _ Hfl).
      unfold wake_weight. cbn. destruct (_wake_weight st); reflexivity.
Qed.

(** X9. What construction does, in full. [norm_order] is assigned first:
    if the truth value of its comparison with the default is ambiguous,
    construction raises that error with nothing logged, whatever
    [wake_weight] is. Otherwise at most one advisory record is logged for
    [norm_order], and then either [wake_weight] is a [float], construction
    succeeds and at most one more advisory record follows, or it is not,
    one error record follows and construction raises the type error.
    Construction never changes the store of arrays. *)
Theorem FractionalNorm_outcome user lg h :
  let v := configured user "norm_order" (of_Q (3 # 2)) in
  let w := configured user "wake_weight" (of_Q 1) in
  let c := FractionalNorm user lg h in
  heap (snd c) = h /\
  match truth (py_ne v (of_Q (3 # 2))) with
  | Raise e => fst c = Raise e /\ logger (snd c) = lg
  | Ok differs =>
      let lg1 :=
        (lg ++ if differs
               then [LogInfo (NotTuned "norm_order" v (VFloat (of_Q (3 # 2))))]
               else [])%list in
      match w with
      | VFloat x =>
          fst c = Ok tt /\
          logger (snd c) =
            (lg1 ++ if feqb x (of_Q 1) then []
                    else [LogInfo (NotTuned "wake_weight" w (VFloat (of_Q 1)))])%list
      | _ =>
          fst c = Raise (ValueError (InvalidValueType "wake_weight" w)) /\
          logger (snd c) =
            (lg1 ++ [LogError (InvalidValueType "wake_weight" w)])%list
      end
  end.
Proof.
  cbn zeta. rewrite FractionalNorm_unfold, norm_order_setter_unfold. cbn zeta.
  destruct (truth (py_ne (configured user "norm_order" (of_Q (3 # 2))) (of_Q (3 # 2))))
    as [[|]|e]; cbn; [| | auto];
    (destruct (configured user "wake_weight" (of_Q 1)) as [|z|x|s|l|d|a];
     [rewrite wake_weight_setter_not_float by reflexivity
     |rewrite wake_weight_setter_not_float by reflexivity
     |rewrite wake_weight_setter_float
     |rewrite wake_weight_setter_not_float by reflexivity
     |rewrite wake_weight_setter_not_float by reflexivity
     |rewrite wake_weight_setter_not_float by reflexivity
     |rewrite wake_weight_setter_not_float by reflexivity];
     cbn; try (destruct (feqb x (of_Q 1)); cbn);
     rewrite ?app_nil_r; auto).
Qed.


End FurtherProperties.


(** * The properties on the concrete scene *)

(** The real numbers satisfy the laws. *)
#[export] Instance R_Float64Laws : Float64Laws R.
Proof.
  split.
  - intros x y. apply Rplus_comm.
  - intros x. cbn. unfold Rpow, Q2R. cbn.
    replace (1 * / 1)%R with 1%R by lra.
    destruct (total_order_T 0 x) as [[Hx | Hx] | Hx].
    + apply Rpower_1. exact Hx.
    + destruct (Req_dec_T 1 0) as [E | _]; [lra | congruence].
    + assert (E : Int_part 1 = 1%Z).
      { unfold Int_part. rewrite <- (tech_up 1 2) by (simpl; lra). reflexivity. }
      rewrite E. destruct (Req_dec_T 1 1) as [_ | N]; [| congruence].
      simpl. lra.
  - cbn. unfold Q2R. cbn. lra.
  - cbn. unfold Reqb, Q2R. cbn.
    destruct (Req_dec_T (1 * / 1) (0 * / 1)) as [E | _]; [lra | reflexivity].
Qed.

(** C1 on the scene: with [norm_order = [2]] and turbine [0], the result
    holds [(3 ** 2 + 1 ** 2) ** (1 / 2)] and [(4 ** 2 + 2 ** 2) ** (1 / 2)]. *)
Lemma function_elementwise_witness :
  returned (function 1%positive 2%positive (Some 0%Z)
              (example_state (VList [NInt 2]))) =
    Ok (NdArray [2]
          [fractional_norm (of_Z 2) (fdiv (of_Z 1) (of_Z 2)) 3%R 1%R;
           fractional_norm (of_Z 2) (fdiv (of_Z 1) (of_Z 2)) 4%R 2%R]).
Proof.
  destruct (function_elementwise (example_state (VList [NInt 2]))
              (VList [NInt 2]) 0%Z (IPy (NInt 2)) 1%positive 2%positive
              example_field example_wake
              eq_refl I eq_refl eq_refl eq_refl eq_refl eq_refl eq_refl)
    as (_ & Hr & _).
  exact (Hr (of_Z 2) eq_refl).
Defined.

(** C6 on the scene: swapping the two fields. *)
Lemma function_commutative_witness :
  returned (function 1%positive 2%positive (Some 0%Z)
              (example_state (VList [NInt 2]))) =
  returned (function 2%positive 1%positive (Some 0%Z)
              (example_state (VList [NInt 2]))).
Proof.
  exact (function_commutative (example_state (VList [NInt 2]))
           1%positive 2%positive (Some 0%Z) example_field example_wake
           eq_refl eq_refl eq_refl).
Defined.

(** C7 on the scene: with [norm_order = [1]] the result is the sum. *)
Lemma function_linear_superposition_witness :
  returned (function 1%positive 2%positive (Some 0%Z)
              (example_state (VList [NInt 1]))) =
    Ok (NdArray [2] [(1 + 3)%R; (2 + 4)%R]).
Proof.
  exact (function_linear_superposition (example_state (VList [NInt 1]))
           (VList [NInt 1]) (Some 0%Z) (IPy (NInt 1)) 1%positive 2%positive
           example_field example_wake
           eq_refl eq_refl (or_introl eq_refl) eq_refl eq_refl eq_refl eq_refl eq_refl).
Defined.

(** C9 on the scene: the call returns a new array of shape [[2]]. *)
Lemma function_frame_witness :
  let st := example_state (VList [NInt 2]) in
  let r := function 1%positive 2%positive (Some 0%Z) st in
  exists l out,
    fst r = Ok l /\ heap st !! l = None /\
    heap (snd r) !! l = Some out /\ shape out = [2].
Proof.
  cbn zeta.
  destruct (function_frame (example_state (VList [NInt 2]))
              1%positive 2%positive (Some 0%Z)) as (_ & _ & _ & H).
  exact (H (VList [NInt 2]) (IPy (NInt 2)) (of_Z 2)
           (IPy (NFloat (fdiv (of_Z 1) (of_Z 2)))) example_field example_wake
           eq_refl eq_refl eq_refl eq_refl eq_refl eq_refl eq_refl).
Defined.

(** C10 on the scene: [norm_order] written with an array of two elements. *)
Lemma norm_order_setter_array_raises_witness :
  let r := norm_order_setter (VArray example_orders) (new_object [] ∅) in
  fst r = Raise (ValueError AmbiguousTruth) /\
  _norm_order (snd r) = Some (VArray example_orders) /\
  logger (snd r) = [] /\
  fst (FractionalNorm (Some (<["norm_order" := VArray example_orders]> ∅)) [] ∅) =
    Raise (ValueError AmbiguousTruth).
Proof.
  exact (norm_order_setter_array_raises example_orders (new_object [] ∅) ∅ [] ∅
           (Nat.lt_succ_diag_r 1)).
Defined.

(** C2 on the shape scenario: the strategy is constructed with the scalar
    [norm_order = 2], and the call on the two 3-by-3 arrays of ones raises
    [TypeError]. *)
Lemma function_scalar_norm_order_raises_witness :
  let c := FractionalNorm (F:=R) (Some (<["norm_order" := VInt 2]> ∅)) [] ones_heap in
  fst c = Ok tt /\
  _norm_order (snd c) = Some (VInt 2) /\
  function 1%positive 2%positive None (snd c) = (Raise TypeError, snd c).
Proof.
  exact (function_scalar_norm_order_raises [] ones_heap 1%positive 2%positive None).
Defined.

(** ** The shape scenario with a per-turbine [norm_order] *)

(** On the reals, [(1 ** 2 + 1 ** 2) ** (1 / 2)] is the square root of 2. *)
Lemma fractional_norm_ones :
  fractional_norm (of_Z 2) (fdiv (of_Z 1) (of_Z 2)) 1%R 1%R = sqrt 2.
Proof.
  unfold fractional_norm, of_Z. cbn. unfold Rpow, Q2R. cbn.
  destruct (total_order_T 0 1) as [[H1 | H1] | H1]; try lra.
  assert (E : Rpower 1 (2 * / 1) = 1%R).
  { unfold Rpower. rewrite ln_1, Rmult_0_r. apply exp_0. }
  rewrite E.
  destruct (total_order_T 0 (1 + 1)) as [[H2 | H2] | H2]; try lra.
  replace (1 * / 1 / (2 * / 1))%R with (/ 2)%R by lra.
  replace (1 + 1)%R with 2%R by lra.
  apply Rpower_sqrt. lra.
Qed.

(** With the per-turbine configuration [norm_order = [2]] and turbine [0],
    the call on the two 3-by-3 arrays of ones returns a 3-by-3 array of the
    square root of 2. *)
Lemma shape_scenario_per_turbine :
  let c := FractionalNorm (F:=R) (Some (<["norm_order" := VList [NInt 2]]> ∅)) [] ones_heap in
  fst c = Ok tt /\
  returned (function 1%positive 2%positive (Some 0%Z) (snd c)) =
    Ok (NdArray [3; 3] (replicate 9 (sqrt 2))).
Proof.
  cbn zeta.
  pose proof (FractionalNorm_ok (F:=R) (Some (<["norm_order" := VList [NInt 2]]> ∅))
                [] ones_heap true) as Hc.
  rewrite configured_insert, configured_insert_ne in Hc by discriminate.
  destruct (Hc eq_refl eq_refl) as (Hok & Hn & _ & Hh). clear Hc.
  split; [exact Hok |].
  rewrite (function_run _ (VList [NInt 2]) (Some 0%Z) (IPy (NInt 2))
             1%positive 2%positive ones_3x3 ones_3x3);
    try (rewrite Hh; reflexivity); try reflexivity; try exact Hn.
  rewrite (combined_scalar (IPy (NInt 2)) (of_Z 2) ones_3x3 ones_3x3);
    try reflexivity.
  rewrite <- fractional_norm_ones. reflexivity.
Qed.

(** C4 on the spec's error scenario: [wake_weight = "fast"]. *)
Lemma wake_weight_setter_type_check_witness :
  let r := wake_weight_setter (F:=R) (VStr "fast") (new_object [] ∅) in
  fst r = Raise (ValueError (InvalidValueType "wake_weight" (VStr "fast"))) /\
  _wake_weight (snd r) = None /\
  let c := FractionalNorm (Some (<["wake_weight" := VStr "fast"]> ∅)) [] ∅ in
  (exists e, fst c = Raise e) /\
  fst (wake_weight (snd c)) = Raise AttributeError.
Proof.
  exact (wake_weight_setter_type_check (VStr "fast") (new_object [] ∅) ∅ [] ∅).
Defined.

(** C8 on the spec's advisory scenario: [wake_weight = 2.0] is stored,
    exactly one record is logged, and construction succeeds. *)
Lemma wake_weight_deviation_is_advisory_witness :
  let r := wake_weight_setter (F:=R) (VFloat 2%R) (new_object [] ∅) in
  fst r = Ok tt /\
  _wake_weight (snd r) = Some (VFloat 2%R) /\
  logger (snd r) =
    [LogInfo (NotTuned "wake_weight" (VFloat 2%R) (VFloat (of_Q 1)))] /\
  fst (FractionalNorm (Some (<["wake_weight" := VFloat 2%R]> ∅)) [] ∅) = Ok tt.
Proof.
  destruct (wake_weight_deviation_is_advisory 2%R (new_object [] ∅) ∅ [] ∅
              1%positive 2%positive None) as (H1 & H2 & H3 & H4 & _).
  cbn zeta. split; [exact H1 |]. split; [exact H2 |]. split; [| exact H4].
  rewrite H3. cbn. unfold Reqb.
  destruct (Req_dec_T 2 (Q2R 1)) as [E | _]; [| reflexivity].
  unfold Q2R in E. cbn in E. lra.
Defined.

(** * The further properties on the concrete scene *)

(** X1 on the scene: the default [norm_order = 1.5]. *)
Lemma function_needs_collection_witness :
  function 1%positive 2%positive (Some 0%Z)
    (example_state (VFloat (of_Q (3 # 2)))) =
  (Raise TypeError, example_state (VFloat (of_Q (3 # 2)))).
Proof.
  exact (function_needs_collection (example_state (VFloat (of_Q (3 # 2))))
           (VFloat (of_Q (3 # 2))) 1%positive 2%positive (Some 0%Z)
           eq_refl (ex_intro _ example_wake eq_refl)).
Defined.

(** X2 on the scene: a list and no turbine index. *)
Lemma function_without_turbnum_witness :
  function 1%positive 2%positive None (example_state (VList [NInt 2])) =
  (Raise TypeError, example_state (VList [NInt 2])).
Proof.
  exact (function_without_turbnum (example_state (VList [NInt 2]))
           (VList [NInt 2]) 1%positive 2%positive eq_refl).
Defined.

(** X3 on the scene: turbine [5] of a list of one exponent. *)
Lemma function_index_absent_witness :
  function 1%positive 2%positive (Some 5%Z) (example_state (VList [NInt 2])) =
  (Raise IndexError, example_state (VList [NInt 2])).
Proof.
  apply (proj1 (function_index_absent (example_state (VList [NInt 2]))
                  1%positive 2%positive 5%Z) [NInt 2]).
  - reflexivity.
  - right. cbn. lia.
Defined.

(** X4 on the scene: turbine [-1] of a list of two exponents is turbine
    [1]. *)
Lemma function_negative_index_witness :
  function 1%positive 2%positive (Some (-1)%Z)
    (example_state (VList [NInt 1; NInt 2])) =
  function 1%positive 2%positive (Some 1%Z)
    (example_state (VList [NInt 1; NInt 2])).
Proof.
  apply (function_negative_index (example_state (VList [NInt 1; NInt 2]))
           (VList [NInt 1; NInt 2]) 2 1%Z 1%positive 2%positive).
  - reflexivity.
  - reflexivity.
  - lia.
Defined.

(** X5 on the scene: a field of three points and a wake of two, with the
    exponent [0]. *)
Lemma function_broadcast_witness :
  returned (function 4%positive 2%positive (Some 0%Z)
              (scene_state (VList [NInt 0]))) =
  Raise (ValueError BroadcastMismatch).
Proof.
  exact (function_broadcast (scene_state (VList [NInt 0])) (VList [NInt 0])
           (Some 0%Z) (IPy (NInt 0)) (of_Z 0) 4%positive 2%positive
           example_wide example_wake eq_refl eq_refl eq_refl eq_refl eq_refl).
Defined.

(** X6 on the scene: the call of C1, twice. *)
Lemma function_repeatable_witness :
  returned (function 1%positive 2%positive (Some 0%Z)
              (snd (function 1%positive 2%positive (Some 0%Z)
                      (example_state (VList [NInt 2]))))) =
  returned (function 1%positive 2%positive (Some 0%Z)
              (example_state (VList [NInt 2]))).
Proof.
  exact (function_repeatable (example_state (VList [NInt 2]))
           1%positive 2%positive (Some 0%Z) example_field example_wake
           eq_refl eq_refl).
Defined.

(** X7 on the scene: the field combined with the first wake, then with the
    second. *)
Lemma function_chain_witness :
  exists l st1,
    function 1%positive 2%positive (Some 0%Z) (scene_state (VList [NInt 2])) =
      (Ok l, st1) /\
    returned (function l 3%positive (Some 0%Z) st1) =
      Ok (NdArray [2]
            (zip_with (fractional_norm (of_Z 2) (fdiv (of_Z 1) (of_Z 2)))
               [5%R; 6%R]
               (zip_with (fractional_norm (of_Z 2) (fdiv (of_Z 1) (of_Z 2)))
                  [3%R; 4%R] [1%R; 2%R]))).
Proof.
  exact (function_chain (scene_state (VList [NInt 2])) (VList [NInt 2])
           (Some 0%Z) (IPy (NInt 2)) (of_Z 2)
           (IPy (NFloat (fdiv (of_Z 1) (of_Z 2))))
           1%positive 2%positive 3%positive
           example_field example_wake example_wake2
           eq_refl eq_refl eq_refl eq_refl eq_refl eq_refl eq_refl
           eq_refl eq_refl eq_refl eq_refl eq_refl).
Defined.

(** C9, the claim as stated, on the scene: with [norm_order] an array of
    one exponent and no turbine index, the exponent is the array under a new
    axis, of shape [[1; 1]]. The call on the two fields of shape [[2]]
    returns, and the array it returns has shape [[1; 2]], not the shape of
    the inputs. *)
Lemma function_frame_counterexample :
  exists out,
    returned (function 1%positive 2%positive None
                (example_state (VArray example_single))) = Ok out /\
    shape example_field = [2] /\
    shape example_wake = [2] /\
    shape out = [1; 2] /\
    shape out <> shape example_field.
Proof.
  eexists. split.
  - rewrite (function_run (example_state (VArray example_single))
               (VArray example_single) None (IArr (NdArray [1; 1] [1%R]))
               1%positive 2%positive example_field example_wake
               eq_refl eq_refl eq_refl eq_refl).
    reflexivity.
  - repeat split; try reflexivity. discriminate.
Qed.

(** On the reals, a negative base has its power at an integer exponent. *)
Lemma Rpow_negative_base : Rpow (-3) 2 = 9%R.
Proof.
  unfold Rpow.
  destruct (total_order_T 0 (-3)) as [[H | H] | H]; try lra.
  assert (E : Int_part 2 = 2%Z).
  { unfold Int_part. rewrite <- (tech_up 2 3) by (simpl; lra). reflexivity. }
  rewrite E. destruct (Req_dec_T 2 2) as [_ | N]; [| congruence].
  simpl. lra.
Qed.
